(** * Jira Issue Copy Helper: the URL classifier, the page scraper, the
      format generator and the clipboard fallback, embedded in Rocq.

    JavaScript strings are modelled as [string]: every [ascii] stands for the
    code unit of the same number (0..255).  All patterns and literals of the
    program are ASCII.

    What the browser provides (the URL parser, the query-string parser, the
    DOM, the clipboard) is a parameter of the functions that call it, so the
    theorems hold for every behaviour of the browser. *)

From Stdlib Require Import String Ascii List Bool Arith Lia.
Import ListNotations.
Local Open Scope string_scope.
Local Open Scope bool_scope.
Local Open Scope nat_scope.

(** ** JavaScript strings and values *)
Module JS.

(** The values the program passes around where a URL, key or summary is
    expected. *)
Inductive value :=
| Null
| Undefined
| Str (s : string).

(** ToBoolean: [!v] is [negb (truthy v)]. *)
Definition truthy (v : value) : bool :=
  match v with
  | Null | Undefined => false
  | Str EmptyString => false
  | Str _ => true
  end.

(** ToString *)
Definition to_string (v : value) : string :=
  match v with
  | Null => "null"
  | Undefined => "undefined"
  | Str s => s
  end.

Definition code (c : ascii) : nat := nat_of_ascii c.

Definition between (lo hi : nat) (c : ascii) : bool :=
  (lo <=? code c) && (code c <=? hi).

Definition is_upper (c : ascii) : bool := between 65 90 c.
Definition is_lower (c : ascii) : bool := between 97 122 c.
Definition is_digit (c : ascii) : bool := between 48 57 c.

(** Line terminators (LF, CR) and white space (TAB, VT, FF, SP, NBSP)
    among the code units below 256. *)
Definition is_line_terminator (c : ascii) : bool :=
  (code c =? 10) || (code c =? 13).

Definition is_space (c : ascii) : bool :=
  (code c =? 9) || (code c =? 11) || (code c =? 12) || (code c =? 32)
  || (code c =? 160) || is_line_terminator c.

Definition upper_char (c : ascii) : ascii :=
  if is_lower c then ascii_of_nat (code c - 32) else c.

Definition lower_char (c : ascii) : ascii :=
  if is_upper c then ascii_of_nat (code c + 32) else c.

Fixpoint map_string (f : ascii -> ascii) (s : string) : string :=
  match s with
  | EmptyString => EmptyString
  | String c s' => String (f c) (map_string f s')
  end.

(** String.prototype.toUpperCase on the letters a..z; the program calls it
    only on text matched by an ASCII pattern. *)
Definition toUpperCase (s : string) : string := map_string upper_char s.

Definition toLowerCase (s : string) : string := map_string lower_char s.

Definition startsWith (s p : string) : bool := prefix p s.

Definition endsWith (s p : string) : bool :=
  (String.length p <=? String.length s)
  && String.eqb
       (substring (String.length s - String.length p) (String.length p) s) p.

Fixpoint trimStart (s : string) : string :=
  match s with
  | EmptyString => EmptyString
  | String c s' => if is_space c then trimStart s' else s
  end.

Fixpoint trimEnd (s : string) : string :=
  match s with
  | EmptyString => EmptyString
  | String c s' =>
      match trimEnd s' with
      | EmptyString => if is_space c then EmptyString else String c EmptyString
      | t => String c t
      end
  end.

Definition trim (s : string) : string := trimEnd (trimStart s).

(** The double quote, for the attribute selectors and the anchor markup. *)
Definition dquote : string := String (ascii_of_nat 34) EmptyString.

End JS.

(** ** Regular expressions: the fragment the program's patterns use *)
Module RegExp.
Import JS.

Inductive atom :=
| One (c : ascii)            (* a literal character *)
| Range (lo hi : ascii)      (* lo-hi inside a class *)
| Digit                      (* \d *)
| Space.                     (* \s *)

Inductive cset :=
| Dot                        (* . *)
| Class (l : list atom)      (* [...] *)
| NotClass (l : list atom).  (* [^...] *)

Inductive regex :=
| Empty
| Chars (cs : cset)
| Seq (r1 r2 : regex)
| Star (cs : cset)           (* cs*  greedy *)
| StarLazy (cs : cset)       (* cs*? lazy *)
| Opt (r : regex)            (* r?   greedy *)
| Group (n : nat) (r : regex)
| AssertStart                (* ^ *)
| AssertEnd.                 (* $ *)

Declare Scope regex_scope.
Delimit Scope regex_scope with re.
Bind Scope regex_scope with regex.
Infix ">>" := Seq (at level 61, right associativity) : regex_scope.

Definition Plus (cs : cset) : regex := (Chars cs >> Star cs)%re.
Definition PlusLazy (cs : cset) : regex := (Chars cs >> StarLazy cs)%re.

Fixpoint lit (s : string) : regex :=
  match s with
  | EmptyString => Empty
  | String c s' => (Chars (Class [One c]) >> lit s')%re
  end.

(** A pattern with its [i] flag. *)
Record pattern := { source : regex; ignoreCase : bool }.

Definition atom_base (a : atom) (c : ascii) : bool :=
  match a with
  | One x => Ascii.eqb x c
  | Range lo hi => between (code lo) (code hi) c
  | Digit => is_digit c
  | Space => is_space c
  end.

(** With the [i] flag a character matches when its canonical form is that
    of a member of the set; on ASCII that is the character itself or its
    other case. *)
Definition atom_mem (ci : bool) (a : atom) (c : ascii) : bool :=
  atom_base a c
  || (ci && (atom_base a (upper_char c) || atom_base a (lower_char c))).

Definition cset_mem (ci : bool) (cs : cset) (c : ascii) : bool :=
  match cs with
  | Dot => negb (is_line_terminator c)
  | Class l => existsb (fun a => atom_mem ci a c) l
  | NotClass l => negb (existsb (fun a => atom_mem ci a c) l)
  end.

(** Captures: group number and captured text, the latest first. *)
Definition captures := list (nat * string).

Fixpoint group (n : nat) (cs : captures) : option string :=
  match cs with
  | [] => None
  | (m, s) :: cs' => if m =? n then Some s else group n cs'
  end.

(** A continuation receives the position reached and the text left. *)
Definition cont := nat -> string -> captures -> option captures.

Fixpoint star_greedy (p : ascii -> bool) (pos : nat) (s : string)
         (k : nat -> string -> option captures) : option captures :=
  match s with
  | String c s' =>
      if p c then
        match star_greedy p (S pos) s' k with
        | Some r => Some r
        | None => k pos s
        end
      else k pos s
  | EmptyString => k pos s
  end.

Fixpoint star_lazy (p : ascii -> bool) (pos : nat) (s : string)
         (k : nat -> string -> option captures) : option captures :=
  match k pos s with
  | Some r => Some r
  | None =>
      match s with
      | String c s' => if p c then star_lazy p (S pos) s' k else None
      | EmptyString => None
      end
  end.

(** The backtracking matcher: the first alternative that lets the
    continuation succeed wins. *)
Fixpoint rmatch (ci : bool) (r : regex) (pos : nat) (s : string)
         (cs : captures) (k : cont) : option captures :=
  match r with
  | Empty => k pos s cs
  | Chars a =>
      match s with
      | String c s' => if cset_mem ci a c then k (S pos) s' cs else None
      | EmptyString => None
      end
  | Seq r1 r2 =>
      rmatch ci r1 pos s cs (fun pos' s' cs' => rmatch ci r2 pos' s' cs' k)
  | Star a => star_greedy (cset_mem ci a) pos s (fun pos' s' => k pos' s' cs)
  | StarLazy a => star_lazy (cset_mem ci a) pos s (fun pos' s' => k pos' s' cs)
  | Opt r1 =>
      match rmatch ci r1 pos s cs k with
      | Some res => Some res
      | None => k pos s cs
      end
  | Group n r1 =>
      rmatch ci r1 pos s cs
        (fun pos' s' cs' => k pos' s' ((n, substring 0 (pos' - pos) s) :: cs'))
  | AssertStart => if pos =? 0 then k pos s cs else None
  | AssertEnd =>
      match s with
      | EmptyString => k pos s cs
      | String _ _ => None
      end
  end.

Definition accept : cont := fun _ _ cs => Some cs.

(** The match is tried at every start position, from the left. *)
Fixpoint search (ci : bool) (r : regex) (pos : nat) (s : string)
  : option captures :=
  match rmatch ci r pos s [] accept with
  | Some cs => Some cs
  | None =>
      match s with
      | EmptyString => None
      | String _ s' => search ci r (S pos) s'
      end
  end.

(** [s.match(p)] for a pattern without the [g] flag, and [p.test(s)]. *)
Definition exec (p : pattern) (s : string) : option captures :=
  search (ignoreCase p) (source p) 0 s.

Definition test (p : pattern) (s : string) : bool :=
  match exec p s with Some _ => true | None => false end.

Definition digit : cset := Class [Digit].
Definition letter : cset := Class [Range "A" "Z"].
Definition alnum : cset := Class [Range "A" "Z"; Range "0" "9"].
Definition space : cset := Class [Space].

(** [A-Z][A-Z0-9]+-\d+ *)
Definition issue_key : regex :=
  (Chars letter >> Plus alnum >> lit "-" >> Plus digit)%re.

End RegExp.

(** ** Completions: a call returns normally or throws *)
Module Completion.

Inductive error :=
| TypeError (msg : string)
| ReferenceError (msg : string)
| DOMException (msg : string).

Inductive completion (A : Type) :=
| Normal (a : A)
| Throw (e : error).
Arguments Normal {A} a.
Arguments Throw {A} e.

Definition bind {A B} (c : completion A) (f : A -> completion B)
  : completion B :=
  match c with
  | Normal a => f a
  | Throw e => Throw e
  end.

(** try { body } catch (e) { handler e } *)
Definition try_catch {A} (body : completion A) (handler : error -> completion A)
  : completion A :=
  match body with
  | Normal a => Normal a
  | Throw e => handler e
  end.

Declare Scope completion_scope.
Delimit Scope completion_scope with completion.
Notation "'let*' x ':=' c 'in' k" := (bind c (fun x => k))
  (at level 10, x name, c at level 100, k at level 200) : completion_scope.

End Completion.

(** ** background_script.js *)
Module Background.
Import JS RegExp Completion.
Local Open Scope completion_scope.

(** The fields of a URL object that the script reads.  [searchParams] is
    the list of name-value pairs of the query, in order. *)
Record URL := {
  hostname : string;
  pathname : string;
  searchParams : list (string * string)
}.

(** URLSearchParams.prototype.has *)
Definition has (name : string) (params : list (string * string)) : bool :=
  existsb (fun p => String.eqb (fst p) name) params.

(** /\/browse\/[A-Z][A-Z0-9]+-\d+/i *)
Definition browse_re : pattern :=
  {| source := (lit "/browse/" >> issue_key)%re; ignoreCase := true |}.

Definition board_prefix : regex :=
  (lit "/jira/software/" >> Plus (NotClass [One "/"]) >> lit "/boards/"
   >> Plus digit)%re.

(** /\/jira\/software\/[^/]+\/boards\/\d+\/?$/ *)
Definition board_re : pattern :=
  {| source := (board_prefix >> Opt (lit "/") >> AssertEnd)%re;
     ignoreCase := false |}.

(** /\/jira\/software\/[^/]+\/boards\/\d+\/backlog\/?/ *)
Definition backlog_re : pattern :=
  {| source := (board_prefix >> lit "/backlog" >> Opt (lit "/"))%re;
     ignoreCase := false |}.

(** /\/jira\/software\/[^/]+\/boards\/\d+\/timeline\/?/ *)
Definition timeline_re : pattern :=
  {| source := (board_prefix >> lit "/timeline" >> Opt (lit "/"))%re;
     ignoreCase := false |}.

Section WithBrowser.

(** The browser's URL parser: [None] when [new URL(s)] throws. *)
Variable URL_parse : string -> option URL.

Definition new_URL (url : value) : completion URL :=
  match URL_parse (to_string url) with
  | Some u => Normal u
  | None => Throw (TypeError "Invalid URL")
  end.

Definition hasIdentifiableIssue (url : value) : completion bool :=
  if negb (truthy url) then Normal false
  else
    try_catch
      (let* urlObj := new_URL url in
       let hostname := hostname urlObj in
       let pathname := pathname urlObj in
       let searchParams := searchParams urlObj in
       (* Must be an Atlassian site *)
       if negb (endsWith hostname ".atlassian.net") then Normal false
       (* Pattern 1: direct issue view *)
       else if test browse_re pathname then Normal true
       (* Pattern 2: board view *)
       else if test board_re pathname then
         Normal (has "selectedIssue" searchParams)
       (* Pattern 3: backlog view *)
       else if test backlog_re pathname then
         Normal (has "selectedIssue" searchParams)
       (* Pattern 4: timeline view *)
       else if test timeline_re pathname then
         Normal (has "selectedIssue" searchParams)
       (* Pattern 5: issue detail panel in other views *)
       else if startsWith pathname "/jira/"
               && has "selectedIssue" searchParams then Normal true
       else Normal false)
      (fun e => Normal false).

End WithBrowser.

End Background.

(** ** The content script (extractIssueData, generateFormats, escapeHtml) *)
Module Content.
Import JS RegExp.

(** What the script reads of the page: the location, the document title,
    and for a selector the text content of the first element it selects
    ([None] when [document.querySelector] returns null). *)
Record Page := {
  href : string;
  search : string;
  origin : string;
  title : string;
  querySelector : string -> option string
}.

Record IssueData := { key : value; summary : value; url : string }.

Definition set_key (k : value) (d : IssueData) : IssueData :=
  {| key := k; summary := summary d; url := url d |}.
Definition set_summary (v : value) (d : IssueData) : IssueData :=
  {| key := key d; summary := v; url := url d |}.
Definition set_url (u : string) (d : IssueData) : IssueData :=
  {| key := key d; summary := summary d; url := u |}.

Record Formats := {
  plainText : string;
  markdown : string;
  markdownShort : string;
  html : string
}.

(** URLSearchParams.prototype.get: the value of the first pair of that
    name, or null. *)
Fixpoint get (name : string) (params : list (string * string)) : value :=
  match params with
  | [] => Null
  | (n, v) :: rest => if String.eqb n name then Str v else get name rest
  end.

(** [m[n]] of a match result; every group of the program's patterns takes
    part in every match. *)
Definition capture (n : nat) (m : captures) : string :=
  match group n m with
  | Some g => g
  | None => EmptyString
  end.

(** /\/browse\/([A-Z][A-Z0-9]+-\d+)/i *)
Definition url_key_re : pattern :=
  {| source := (lit "/browse/" >> Group 1 issue_key)%re; ignoreCase := true |}.

(** /^[A-Z][A-Z0-9]+-\d+$/i *)
Definition selected_re : pattern :=
  {| source := (AssertStart >> issue_key >> AssertEnd)%re; ignoreCase := true |}.

(** /([A-Z][A-Z0-9]+-\d+)/i *)
Definition text_key_re : pattern :=
  {| source := Group 1 issue_key; ignoreCase := true |}.

(** /\[([A-Z][A-Z0-9]+-\d+)\]\s*(.+?)(?:\s*-\s*Jira)?$/i *)
Definition title_re : pattern :=
  {| source :=
       (lit "[" >> Group 1 issue_key >> lit "]" >> Star space
        >> Group 2 (PlusLazy Dot)
        >> Opt (Star space >> lit "-" >> Star space >> lit "Jira")
        >> AssertEnd)%re;
     ignoreCase := true |}.

Definition testid (v : string) : string :=
  "[data-testid=" ++ dquote ++ v ++ dquote ++ "]".
Definition test_id (v : string) : string :=
  "[data-test-id=" ++ dquote ++ v ++ dquote ++ "]".

Definition breadcrumb_link : string :=
  testid "issue.views.issue-base.foundation.breadcrumbs.current-issue.item"
  ++ " a".

Definition keySelectors : list string :=
  [ testid "issue.views.issue-base.foundation.breadcrumbs.breadcrumb-current-issue-container";
    testid "issue.views.issue-base.foundation.breadcrumbs.current-issue.item";
    "#key-val";
    ".issue-link-key";
    test_id "issue.views.issue-details.issue-key" ].

Definition summarySelectors : list string :=
  [ testid "issue.views.issue-base.foundation.summary.heading";
    testid "issue.views.issue-details.issue-layout.summary";
    "#summary-val";
    "h1" ++ testid "issue.views.issue-details.issue-header.title";
    ".ghx-summary";
    "h1.sc-bwzfXH";
    test_id "issue.views.issue-details.issue-header" ].

(** for (const selector of keySelectors) { ... break; } *)
Fixpoint key_loop (page : Page) (selectors : list string) (data : IssueData)
  : IssueData :=
  match selectors with
  | [] => data
  | selector :: rest =>
      match querySelector page selector with
      | Some textContent =>
          match exec text_key_re textContent with
          | Some keyMatch => set_key (Str (toUpperCase (capture 1 keyMatch))) data
          | None => key_loop page rest data
          end
      | None => key_loop page rest data
      end
  end.

(** for (const selector of summarySelectors) { ... break; } *)
Fixpoint summary_loop (page : Page) (selectors : list string)
         (data : IssueData) : IssueData :=
  match selectors with
  | [] => data
  | selector :: rest =>
      match querySelector page selector with
      | Some textContent =>
          if truthy (Str (trim textContent))
          then set_summary (Str (trim textContent)) data
          else summary_loop page rest data
      | None => summary_loop page rest data
      end
  end.

Section WithBrowser.

(** [new URLSearchParams(s)]: the name-value pairs of a query string. *)
Variable URLSearchParams : string -> list (string * string).

(** Strategy 1: the key from the URL. *)
Definition strategy_url (page : Page) (data : IssueData) : IssueData :=
  match exec url_key_re (href page) with
  | Some urlMatch => set_key (Str (toUpperCase (capture 1 urlMatch))) data
  | None => data
  end.

(** Strategy 2: the selectedIssue query parameter. *)
Definition strategy_param (page : Page) (data : IssueData) : IssueData :=
  if negb (truthy (key data)) then
    let urlParams := URLSearchParams (search page) in
    let selectedIssue := get "selectedIssue" urlParams in
    if truthy selectedIssue && test selected_re (to_string selectedIssue)
    then set_key (Str (toUpperCase (to_string selectedIssue))) data
    else data
  else data.

(** Strategy 3: the breadcrumb link. *)
Definition strategy_breadcrumb (page : Page) (data : IssueData)
  : IssueData :=
  if negb (truthy (key data)) then
    match querySelector page breadcrumb_link with
    | Some textContent => set_key (Str (trim textContent)) data
    | None => data
    end
  else data.

(** The common selectors. *)
Definition strategy_selectors (page : Page) (data : IssueData)
  : IssueData :=
  if negb (truthy (key data)) then key_loop page keySelectors data
  else data.

(** Fallback: summary (and key) from the page title. *)
Definition strategy_title (page : Page) (data : IssueData) : IssueData :=
  if negb (truthy (summary data)) && truthy (Str (title page)) then
    match exec title_re (title page) with
    | Some titleMatch =>
        let data :=
          if negb (truthy (key data))
          then set_key (Str (toUpperCase (capture 1 titleMatch))) data
          else data in
        set_summary (Str (trim (capture 2 titleMatch))) data
    | None => data
    end
  else data.

(** Clean up the URL to be canonical. *)
Definition canonical_url (page : Page) (data : IssueData) : IssueData :=
  if truthy (key data) then
    let baseUrl := origin page in
    set_url (baseUrl ++ "/browse/" ++ to_string (key data)) data
  else data.

Definition extractIssueData (page : Page) : IssueData :=
  let data := {| key := Null; summary := Null; url := href page |} in
  let data := strategy_url page data in
  let data := strategy_param page data in
  let data := strategy_breadcrumb page data in
  let data := strategy_selectors page data in
  let data := summary_loop page summarySelectors data in
  let data := strategy_title page data in
  canonical_url page data.

End WithBrowser.

(** The serialization of a text node ([div.textContent = text] followed
    by [div.innerHTML]): the ampersand, the no-break space and the angle
    brackets are replaced, nothing else. *)
Definition escape_char (c : ascii) : string :=
  if Ascii.eqb c "&" then "&amp;"
  else if code c =? 160 then "&nbsp;"
  else if Ascii.eqb c "<" then "&lt;"
  else if Ascii.eqb c ">" then "&gt;"
  else String c EmptyString.

Fixpoint escapeHtml (text : string) : string :=
  match text with
  | EmptyString => EmptyString
  | String c rest => escape_char c ++ escapeHtml rest
  end.

Definition fullTitle (key summary : value) : string :=
  if truthy summary then to_string key ++ " - " ++ to_string summary
  else to_string key.

Definition generateFormats (issueData : IssueData) : option Formats :=
  let key := key issueData in
  let summary := summary issueData in
  let url := url issueData in
  if negb (truthy key) then None
  else
    let fullTitle := fullTitle key summary in
    Some {|
      plainText := fullTitle;
      markdown := "[" ++ fullTitle ++ "](" ++ url ++ ")";
      markdownShort := "[" ++ to_string key ++ "](" ++ url ++ ")";
      html := "<a href=" ++ dquote ++ url ++ dquote ++ ">"
              ++ escapeHtml fullTitle ++ "</a>"
    |}.

End Content.

(** ** popup/issue_copy.js: the clipboard write *)
Module Popup.
Import JS Completion.

Record Blob := { blobParts : list string; type : string }.

Section WithClipboard.

(** The state the clipboard calls act on, and the calls themselves: each
    returns normally or throws (a rejected promise, awaited, throws). *)
Variable World : Type.
Variable ClipboardItem : Type.

Definition M (A : Type) : Type := World -> completion A * World.

Variable new_ClipboardItem : list (string * Blob) -> M ClipboardItem.
Variable clipboard_write : list ClipboardItem -> M unit.
Variable clipboard_writeText : string -> M unit.
Variable console_warn : string -> error -> World -> World.

Definition bindM {A B} (c : M A) (f : A -> M B) : M B :=
  fun w =>
    match c w with
    | (Normal a, w') => f a w'
    | (Throw e, w') => (Throw e, w')
    end.

Definition try_catchM {A} (body : M A) (handler : error -> M A) : M A :=
  fun w =>
    match body w with
    | (Normal a, w') => (Normal a, w')
    | (Throw e, w') => handler e w'
    end.

(** The [try] block: the rich write of both representations. *)
Definition rich_write (html plainText : string) : M unit :=
  let htmlBlob := {| blobParts := [html]; type := "text/html" |} in
  let textBlob := {| blobParts := [plainText]; type := "text/plain" |} in
  bindM
    (new_ClipboardItem [("text/html", htmlBlob); ("text/plain", textBlob)])
    (fun item => clipboard_write [item]).

(** The [catch] block: warn, then write the HTML string as text. *)
Definition text_fallback (html : string) (err : error) : M unit :=
  fun w =>
    clipboard_writeText html
      (console_warn "ClipboardItem not supported, falling back to text copy:"
         err w).

Definition copyHtmlToClipboard (html plainText : string) : M unit :=
  try_catchM (rich_write html plainText) (text_fallback html).

End WithClipboard.

End Popup.

(** ** A small browser, to run the scripts on concrete pages and URLs

  These stand in for the browser on plain absolute URLs
  (scheme://host[:port]/path?query#fragment).  The general theorems do
  not depend on them. *)
Module Browser.
Import JS Completion.

(** The text before the first character satisfying [p], and the text from
    that character on. *)
Fixpoint break (p : ascii -> bool) (s : string) : string * string :=
  match s with
  | EmptyString => (EmptyString, EmptyString)
  | String c s' =>
      if p c then (EmptyString, s)
      else let (a, b) := break p s' in (String c a, b)
  end.

Definition tail (s : string) : string :=
  match s with
  | EmptyString => EmptyString
  | String _ s' => s'
  end.

Definition is_char (x : ascii) (c : ascii) : bool := Ascii.eqb x c.

(** The pieces of [s] between the occurrences of [sep]. *)
Fixpoint split (sep : ascii) (s : string) : list string :=
  match s with
  | EmptyString => [EmptyString]
  | String c s' =>
      match split sep s' with
      | [] => [String c EmptyString]
      | piece :: pieces =>
          if Ascii.eqb c sep then EmptyString :: piece :: pieces
          else String c piece :: pieces
      end
  end.

Definition plus_to_space (c : ascii) : ascii :=
  if Ascii.eqb c "+" then " "%char else c.

Definition parse_pair (piece : string) : string * string :=
  let (name, rest) := break (is_char "=") piece in
  (map_string plus_to_space name, map_string plus_to_space (tail rest)).

(** The query-string parser, without percent-decoding. *)
Definition URLSearchParams (query : string) : list (string * string) :=
  let query :=
    match query with
    | String "?" q => q
    | _ => query
    end in
  map parse_pair
    (filter (fun piece => negb (String.eqb piece EmptyString))
       (split "&" query)).

Definition is_delim (c : ascii) : bool :=
  Ascii.eqb c "/" || Ascii.eqb c "?" || Ascii.eqb c "#".

Record Location := {
  loc_scheme : string;
  loc_host : string;
  loc_path : string;
  loc_search : string
}.

(** scheme "://" authority path [ "?" query ] [ "#" fragment ] *)
Definition parse_location (s : string) : option Location :=
  let (scheme, rest) := break (is_char ":") s in
  match rest with
  | String ":" (String "/" (String "/" rest)) =>
      let (authority, rest) := break is_delim rest in
      let (host, _) := break (is_char ":") authority in
      let (path, rest) :=
        break (fun c => Ascii.eqb c "?" || Ascii.eqb c "#") rest in
      let (query, _) := break (is_char "#") rest in
      if String.eqb scheme EmptyString || String.eqb host EmptyString
      then None
      else Some {| loc_scheme := toLowerCase scheme;
                   loc_host := toLowerCase host;
                   loc_path :=
                     if String.eqb path EmptyString then "/" else path;
                   loc_search :=
                     if String.eqb query "?" then EmptyString else query |}
  | _ => None
  end.

Definition URL_parse (s : string) : option Background.URL :=
  match parse_location s with
  | Some l =>
      Some {| Background.hostname := loc_host l;
              Background.pathname := loc_path l;
              Background.searchParams := URLSearchParams (loc_search l) |}
  | None => None
  end.

(** Whether the page action is shown for [url]. *)
Definition shown (url : string) : bool :=
  match Background.hasIdentifiableIssue URL_parse (Str url) with
  | Normal b => b
  | Throw _ => false
  end.

(** A page at [url] with the given document title and elements. *)
Definition page_at (url title : string) (dom : list (string * string))
  : Content.Page :=
  let l := match parse_location url with
           | Some l => l
           | None => {| loc_scheme := EmptyString; loc_host := EmptyString;
                        loc_path := EmptyString; loc_search := EmptyString |}
           end in
  {| Content.href := url;
     Content.search := loc_search l;
     Content.origin := loc_scheme l ++ "://" ++ loc_host l;
     Content.title := title;
     Content.querySelector := fun selector =>
       match Content.get selector dom with
       | Str text => Some text
       | _ => None
       end |}.

(** A clipboard: what was last written, and the console log. *)
Inductive content :=
| Nothing
| Text (s : string)
| Rich (items : list (string * Popup.Blob)).

Record World := { clipboard : content; console : list string }.

Definition M := Popup.M World.

Definition writeText (s : string) : M unit :=
  fun w => (Normal tt, {| clipboard := Text s; console := console w |}).

Definition console_warn (msg : string) (e : error) (w : World) : World :=
  {| clipboard := clipboard w; console := (console w ++ [msg])%list |}.

(** A context without ClipboardItem. *)
Definition no_ClipboardItem (items : list (string * Popup.Blob))
  : M (list (string * Popup.Blob)) :=
  fun w => (Throw (ReferenceError "ClipboardItem is not defined"), w).

(** A context with ClipboardItem. *)
Definition new_ClipboardItem (items : list (string * Popup.Blob))
  : M (list (string * Popup.Blob)) :=
  fun w => (Normal items, w).

Definition write (data : list (list (string * Popup.Blob))) : M unit :=
  fun w =>
    (Normal tt, {| clipboard := Rich (concat data); console := console w |}).

(** A context where the rich write is rejected. *)
Definition write_denied (data : list (list (string * Popup.Blob))) : M unit :=
  fun w => (Throw (DOMException "NotAllowedError"), w).

End Browser.

(** ** Shapes of texts, stated without the matcher *)
Module Shape.
Import JS RegExp.

Fixpoint all_chars (p : ascii -> bool) (s : string) : bool :=
  match s with
  | EmptyString => true
  | String c s' => p c && all_chars p s'
  end.

(** [matches ci r pos m rest cs cs']: at position [pos], [r] can match the
    text [m] when [rest] follows, turning the captures [cs] into [cs']. *)
Inductive matches (ci : bool)
  : regex -> nat -> string -> string -> captures -> captures -> Prop :=
| M_Empty pos rest cs :
    matches ci Empty pos EmptyString rest cs cs
| M_Chars a c pos rest cs :
    cset_mem ci a c = true ->
    matches ci (Chars a) pos (String c EmptyString) rest cs cs
| M_Seq r1 r2 pos m1 m2 rest cs cs1 cs2 :
    matches ci r1 pos m1 (m2 ++ rest) cs cs1 ->
    matches ci r2 (pos + String.length m1) m2 rest cs1 cs2 ->
    matches ci (Seq r1 r2) pos (m1 ++ m2) rest cs cs2
| M_Star a pos m rest cs :
    all_chars (cset_mem ci a) m = true ->
    matches ci (Star a) pos m rest cs cs
| M_StarLazy a pos m rest cs :
    all_chars (cset_mem ci a) m = true ->
    matches ci (StarLazy a) pos m rest cs cs
| M_Opt_some r pos m rest cs cs' :
    matches ci r pos m rest cs cs' ->
    matches ci (Opt r) pos m rest cs cs'
| M_Opt_none r pos rest cs :
    matches ci (Opt r) pos EmptyString rest cs cs
| M_Group n r pos m rest cs cs' :
    matches ci r pos m rest cs cs' ->
    matches ci (Group n r) pos m rest cs ((n, m) :: cs')
| M_Start rest cs :
    matches ci AssertStart 0 EmptyString rest cs cs
| M_End pos cs :
    matches ci AssertEnd pos EmptyString EmptyString cs cs.

Definition is_letter (c : ascii) : bool := is_upper c || is_lower c.
Definition is_alnum (c : ascii) : bool := is_letter c || is_digit c.
Definition is_upper_alnum (c : ascii) : bool := is_upper c || is_digit c.
Definition not_slash (c : ascii) : bool := negb (Ascii.eqb c "/").

Definition no_angle (c : ascii) : bool :=
  negb (Ascii.eqb c "<" || Ascii.eqb c ">").

Definition nonempty (s : string) : bool :=
  match s with
  | EmptyString => false
  | String _ _ => true
  end.

(** <KEY> read without regard to case: a letter, one or more letters or
    digits, a hyphen, one or more digits. *)
Inductive key_text : string -> Prop :=
| key_text_intro c body num :
    is_letter c = true ->
    nonempty body = true -> all_chars is_alnum body = true ->
    nonempty num = true -> all_chars is_digit num = true ->
    key_text (String c (body ++ "-" ++ num)).

(** [A-Z][A-Z0-9]+-[0-9]+, the whole text, upper case only. *)
Inductive upper_key_text : string -> Prop :=
| upper_key_text_intro c body num :
    is_upper c = true ->
    nonempty body = true -> all_chars is_upper_alnum body = true ->
    nonempty num = true -> all_chars is_digit num = true ->
    upper_key_text (String c (body ++ "-" ++ num)).

(** A key field that holds no key or a well-formed upper-case key. *)
Definition good_key (v : value) : Prop :=
  v = Null \/ exists k, v = Str k /\ upper_key_text k.

(** Patterns without capture groups. *)
Fixpoint groupless (r : regex) : bool :=
  match r with
  | Seq r1 r2 => groupless r1 && groupless r2
  | Opt r1 => groupless r1
  | Group _ _ => false
  | _ => true
  end.

(** The same as a pattern: /^[A-Z][A-Z0-9]+-[0-9]+$/ *)
Definition key_pattern : pattern :=
  {| source := (AssertStart >> issue_key >> AssertEnd)%re;
     ignoreCase := false |}.

(** /jira/software/<proj>/boards/<id>, then nothing, /backlog or
    /timeline, then an optional slash. *)
Inductive view_path : string -> Prop :=
| view_path_intro proj id view slash :
    nonempty proj = true -> all_chars not_slash proj = true ->
    nonempty id = true -> all_chars is_digit id = true ->
    In view [EmptyString; "/backlog"; "/timeline"] ->
    In slash [EmptyString; "/"] ->
    view_path ("/jira/software/" ++ proj ++ "/boards/" ++ id ++ view ++ slash).

(** One of the three view patterns is found in the path. *)
Definition view_found (p : string) : bool :=
  test Background.board_re p || test Background.backlog_re p
  || test Background.timeline_re p.

(** The accept case of rule 4: a view pattern is found in the path and
    selectedIssue is present. *)
Definition rule4_accepts (u : Background.URL) : bool :=
  view_found (Background.pathname u)
  && Background.has "selectedIssue" (Background.searchParams u).

(** The accept condition of rule 5. *)
Definition rule5_accepts (u : Background.URL) : bool :=
  startsWith (Background.pathname u) "/jira/"
  && Background.has "selectedIssue" (Background.searchParams u).

End Shape.

(** ** background_script.js: the page action and the listeners *)
Module PageAction.
Import JS Completion Background.
Local Open Scope completion_scope.

(** A tab as the listeners read it: [tab.id] and [tab.url] (undefined
    without the permission to read it). *)
Record Tab := { id : nat; url : value }.

(** [changeInfo.url] and [changeInfo.status] of tabs.onUpdated. *)
Record ChangeInfo := { changed_url : value; status : value }.

(** [request.action] and [request.url] of a runtime message, and
    [sender.tab]. *)
Record Request := { action : value; request_url : value }.
Record Sender := { sender_tab : option Tab }.

(** [v === s] for a string literal [s]. *)
Definition is_string (v : value) (s : string) : bool :=
  match v with
  | Str x => String.eqb x s
  | _ => false
  end.

(** For every tab, whether its page action is shown. *)
Definition State := nat -> bool.

(** browser.pageAction.show and browser.pageAction.hide *)
Definition show (tabId : nat) (st : State) : State :=
  fun t => if t =? tabId then true else st t.
Definition hide (tabId : nat) (st : State) : State :=
  fun t => if t =? tabId then false else st t.

(** What the browser hands to the listeners. *)
Inductive event :=
| Updated (tabId : nat) (changeInfo : ChangeInfo) (tab : Tab)
| Activated (got : completion Tab)   (* the outcome of browser.tabs.get *)
| Queried (tabs : list Tab)          (* the result of browser.tabs.query({}) *)
| Message (request : Request) (sender : Sender).

Section WithBrowser.

Variable URL_parse : string -> option URL.

Definition updatePageAction (tabId : nat) (url : value) (st : State)
  : completion State :=
  let* identifiable := hasIdentifiableIssue URL_parse url in
  if identifiable then Normal (show tabId st) else Normal (hide tabId st).

(** browser.tabs.onUpdated *)
Definition onUpdated (tabId : nat) (changeInfo : ChangeInfo) (tab : Tab)
           (st : State) : completion State :=
  if truthy (changed_url changeInfo) || is_string (status changeInfo) "complete"
  then updatePageAction tabId (url tab) st
  else Normal st.

(** browser.tabs.onActivated *)
Definition onActivated (got : completion Tab) (st : State) : completion State :=
  try_catch
    (let* tab := got in updatePageAction (id tab) (url tab) st)
    (fun err => Normal st).

(** tabs.forEach of the start-up query; [tab.id && tab.url] *)
Fixpoint forEach_tab (tabs : list Tab) (st : State) : completion State :=
  match tabs with
  | [] => Normal st
  | tab :: rest =>
      let* st' :=
        (if negb (id tab =? 0) && truthy (url tab)
         then updatePageAction (id tab) (url tab) st
         else Normal st) in
      forEach_tab rest st'
  end.

(** browser.runtime.onMessage *)
Definition onMessage (request : Request) (sender : Sender) (st : State)
  : completion State :=
  match sender_tab sender with
  | Some tab =>
      if is_string (action request) "urlChanged"
      then updatePageAction (id tab) (request_url request) st
      else Normal st
  | None => Normal st
  end.

Definition handle (e : event) (st : State) : completion State :=
  match e with
  | Updated tabId changeInfo tab => onUpdated tabId changeInfo tab st
  | Activated got => onActivated got st
  | Queried tabs => forEach_tab tabs st
  | Message request sender => onMessage request sender st
  end.

Fixpoint run (events : list event) (st : State) : completion State :=
  match events with
  | [] => Normal st
  | e :: rest => let* st' := handle e st in run rest st'
  end.

(** The answer of hasIdentifiableIssue as the [if] of updatePageAction
    reads it. *)
Definition identifiable (url : value) : bool :=
  match hasIdentifiableIssue URL_parse url with
  | Normal b => b
  | Throw _ => false
  end.

End WithBrowser.

(** The tab and URL pairs an event makes the script classify, in order. *)
Definition reports (e : event) : list (nat * value) :=
  match e with
  | Updated tabId changeInfo tab =>
      if truthy (changed_url changeInfo)
         || is_string (status changeInfo) "complete"
      then [(tabId, url tab)] else []
  | Activated (Normal tab) => [(id tab, url tab)]
  | Activated (Throw _) => []
  | Queried tabs =>
      map (fun tab => (id tab, url tab))
        (filter (fun tab => negb (id tab =? 0) && truthy (url tab)) tabs)
  | Message request sender =>
      match sender_tab sender with
      | Some tab =>
          if is_string (action request) "urlChanged"
          then [(id tab, request_url request)] else []
      | None => []
      end
  end.

(** The URL of the last pair for tab [t]. *)
Fixpoint last_report (t : nat) (l : list (nat * value)) : option value :=
  match l with
  | [] => None
  | (t', u) :: rest =>
      match last_report t rest with
      | Some v => Some v
      | None => if t' =? t then Some u else None
      end
  end.

(** [st'] is [st] overwritten, tab by tab, with the answer for the last
    URL reported in [l]. *)
Definition follows (URL_parse : string -> option URL) (st st' : State)
           (l : list (nat * value)) : Prop :=
  forall t, st' t = match last_report t l with
                    | Some u => identifiable URL_parse u
                    | None => st t
                    end.

End PageAction.

(** ** The content script: URL change notifications and the message
    listener *)
Module Messaging.
Import JS Completion Content.

(** The message of browser.runtime.sendMessage *)
Record Message := { action : string; url : string }.

(** [currentUrl] and the messages handed to sendMessage so far. *)
Record State := { currentUrl : string; sent : list Message }.

(** [href] is window.location.href at the time of the call.  A rejected
    sendMessage is swallowed by the [catch]. *)
Definition notifyUrlChange (href : string) (st : State) : State :=
  let newUrl := href in
  if negb (String.eqb newUrl (currentUrl st)) then
    {| currentUrl := newUrl;
       sent := (sent st ++ [{| action := "urlChanged"; url := newUrl |}])%list |}
  else st.

(** The mutation observer, popstate and the interval all call
    notifyUrlChange; [hrefs] are the locations at the successive calls. *)
Fixpoint observe (hrefs : list string) (st : State) : State :=
  match hrefs with
  | [] => st
  | href :: rest => observe rest (notifyUrlChange href st)
  end.

Record Response := { issueData : IssueData; formats : option Formats }.

Section WithBrowser.

Variable URLSearchParams : string -> list (string * string).

(** The listener for the popup's request: what is passed to sendResponse,
    if anything. *)
Definition onMessage (request_action : value) (page : Page)
  : option Response :=
  if PageAction.is_string request_action "getIssueData" then
    let issueData := extractIssueData URLSearchParams page in
    let formats := generateFormats issueData in
    Some {| issueData := issueData; formats := formats |}
  else None.

End WithBrowser.

(** The event the background script receives for a message sent from
    [tab]. *)
Definition delivered (tab : PageAction.Tab) (m : Message) : PageAction.event :=
  PageAction.Message
    {| PageAction.action := Str (action m);
       PageAction.request_url := Str (url m) |}
    {| PageAction.sender_tab := Some tab |}.

Fixpoint last_url (init : string) (l : list string) : string :=
  match l with
  | [] => init
  | x :: rest => last_url x rest
  end.

Fixpoint changes (prev : string) (l : list string) : bool :=
  match l with
  | [] => true
  | x :: rest => negb (String.eqb x prev) && changes x rest
  end.

End Messaging.

(** ** Notions used to state what the scripts guarantee *)
Module Notions.
Import JS RegExp.

(** Whether a pattern has no [^] and no [$]. *)
Fixpoint anchorless (r : regex) : bool :=
  match r with
  | Seq r1 r2 => anchorless r1 && anchorless r2
  | Opt r1 => anchorless r1
  | Group _ r1 => anchorless r1
  | AssertStart | AssertEnd => false
  | _ => true
  end.

(** A field that is null or a text without white space at either end. *)
Definition trimmed (v : value) : Prop :=
  match v with
  | Null => True
  | Undefined => False
  | Str s => trim s = s
  end.

(** The characters escapeHtml replaces. *)
Definition is_special (c : ascii) : bool :=
  Ascii.eqb c "&" || (code c =? 160) || Ascii.eqb c "<" || Ascii.eqb c ">".

Definition is_plain (c : ascii) : bool := negb (is_special c).

End Notions.

(** ** popup/issue_copy.js: the popup's state, init and the copy buttons *)
Module PopupUI.
Import JS Completion Content Popup.

(** String.prototype.includes *)
Fixpoint includes (s p : string) : bool :=
  prefix p s
  || match s with
     | EmptyString => false
     | String _ s' => includes s' p
     end.

Definition isJiraUrl (url : value) : bool :=
  if negb (truthy url) then false
  else includes (to_string url) ".atlassian.net/"
       || includes (to_string url) "/jira/"
       || includes (to_string url) "/browse/".

(** A copy button: its data-format, whether it is disabled, and whether
    handleCopyClick is attached as its click listener (attaching the same
    listener again changes nothing). *)
Record Button := { format : string; disabled : bool; listening : bool }.

(** The elements the popup script touches. *)
Record UI := {
  issue_info_hidden : bool;
  error_message_hidden : bool;
  button_group_hidden : bool;
  issue_key : string;
  issue_summary : string;
  copy_buttons : list Button
}.

(** The module variable [issueFormats] and the document. *)
Record State := { issueFormats : option Formats; ui : UI }.

(** Assigning to textContent: null and undefined give the empty text. *)
Definition text_content (v : value) : string :=
  match v with
  | Str s => s
  | _ => EmptyString
  end.

Definition showIssueInfo (issueData : IssueData) (u : UI) : UI :=
  {| issue_info_hidden := false;
     error_message_hidden := true;
     button_group_hidden := button_group_hidden u;
     issue_key := text_content (key issueData);
     issue_summary :=
       if truthy (summary issueData) then to_string (summary issueData)
       else "(No summary)";
     copy_buttons := copy_buttons u |}.

Definition showError (u : UI) : UI :=
  {| issue_info_hidden := true;
     error_message_hidden := false;
     button_group_hidden := true;
     issue_key := issue_key u;
     issue_summary := issue_summary u;
     copy_buttons := copy_buttons u |}.

Definition enableButtons (u : UI) : UI :=
  {| issue_info_hidden := issue_info_hidden u;
     error_message_hidden := error_message_hidden u;
     button_group_hidden := button_group_hidden u;
     issue_key := issue_key u;
     issue_summary := issue_summary u;
     copy_buttons :=
       map (fun button => {| format := format button; disabled := false;
                             listening := true |})
         (copy_buttons u) |}.

(** What init does with the answer of the content script. *)
Definition respond (response : option Messaging.Response) (st : State)
  : State :=
  match response with
  | Some r =>
      match Messaging.formats r with
      | Some formats =>
          if truthy (key (Messaging.issueData r)) then
            {| issueFormats := Some formats;
               ui := enableButtons (showIssueInfo (Messaging.issueData r) (ui st)) |}
          else {| issueFormats := issueFormats st; ui := showError (ui st) |}
      | None => {| issueFormats := issueFormats st; ui := showError (ui st) |}
      end
  | None => {| issueFormats := issueFormats st; ui := showError (ui st) |}
  end.

Definition failed (st : State) : State :=
  {| issueFormats := issueFormats st; ui := showError (ui st) |}.

(** What [issueFormats[format]] finds: one of the four properties of the
    formats object, a property inherited from Object.prototype (a function
    or an object, of which only the text it converts to is kept), or
    nothing. *)
Inductive property :=
| Own (s : string)
| Inherited (text : string)
| Missing.

(** [inherited name] is the text of the property Object.prototype has under
    that name, if it has one. *)
Definition lookup (inherited : string -> option string) (formats : Formats)
           (format : string) : property :=
  if String.eqb format "plainText" then Own (plainText formats)
  else if String.eqb format "markdown" then Own (markdown formats)
  else if String.eqb format "markdownShort" then Own (markdownShort formats)
  else if String.eqb format "html" then Own (html formats)
  else match inherited format with
       | Some text => Inherited text
       | None => Missing
       end.

(** ToBoolean of what was found. *)
Definition found (p : property) : bool :=
  match p with
  | Own s => truthy (Str s)
  | Inherited _ => true
  | Missing => false
  end.

(** The text writeText receives for what was found. *)
Definition text_of (p : property) : string :=
  match p with
  | Own s => s
  | Inherited text => text
  | Missing => "undefined"
  end.

Section WithBrowser.

Variable World : Type.
Variable ClipboardItem : Type.

Variable tabs_query : M World (list PageAction.Tab).
Variable tabs_sendMessage : nat -> string -> M World (option Messaging.Response).
Variable tabs_executeScript : nat -> string -> M World unit.
Variable console_log : string -> World -> World.
Variable console_error : string -> World -> World.
Variable console_warn : string -> error -> World -> World.
Variable new_ClipboardItem : list (string * Blob) -> M World ClipboardItem.
Variable clipboard_write : list ClipboardItem -> M World unit.
Variable clipboard_writeText : string -> M World unit.

(** The two feedback functions set classes and timers on the toast; they
    are taken as they come. *)
Variable showCopiedFeedback : Button -> M World unit.
Variable showErrorFeedback : string -> M World unit.

(** The properties of Object.prototype, by name. *)
Variable inherited : string -> option string.

Definition ret {A} (a : A) : M World A := fun w => (Normal a, w).

Definition log {A} (f : World -> World) (k : M World A) : M World A :=
  fun w => k (f w).

Definition injectContentScript (tabId : nat) : M World unit :=
  try_catchM World (tabs_executeScript tabId "content.js")
    (fun err => log (console_error "Failed to inject content script:") (ret tt)).

(** await sendMessage, then the if/else on the response. *)
Definition request_issue (tabId : nat) (st : State) : M World State :=
  bindM World (tabs_sendMessage tabId "getIssueData")
    (fun response => ret (respond response st)).

(** The callback handed to setTimeout: it runs when the timer fires, on
    the state the popup has then. *)
Definition retry (tabId : nat) (st : State) : M World State :=
  try_catchM World (request_issue tabId st)
    (fun retryErr => log (console_error "Retry failed:") (ret (failed st))).

(** init returns the state it leaves and, if it called setTimeout, the tab
    of the retry it scheduled; the retry itself has not run yet. *)
Definition init (st : State) : M World (State * option nat) :=
  try_catchM World
    (bindM World tabs_query
       (fun tabs =>
          match tabs with
          | [] => ret (failed st, None)
          | tab :: _ =>
              if negb (isJiraUrl (PageAction.url tab))
              then ret (failed st, None)
              else
                try_catchM World
                  (bindM World (request_issue (PageAction.id tab) st)
                     (fun st' => ret (st', None)))
                  (fun err =>
                     log (console_log
                            "Content script not responding, attempting injection...")
                       (bindM World (injectContentScript (PageAction.id tab))
                          (fun _ => ret (st, Some (PageAction.id tab)))))
          end))
    (fun err => log (console_error "Init error:") (ret (failed st, None))).

(** The [if (format === "html")] inside the [try] of handleCopyClick. *)
Definition write_step (formats : Formats) (format textToCopy : string)
  : M World unit :=
  if String.eqb format "html" then
    copyHtmlToClipboard World ClipboardItem new_ClipboardItem clipboard_write
      clipboard_writeText console_warn textToCopy (plainText formats)
  else clipboard_writeText textToCopy.

Definition handleCopyClick (issueFormats : option Formats) (button : Button)
  : M World unit :=
  let format := format button in
  match issueFormats with
  | None => log (console_error "Format not available:") (ret tt)
  | Some formats =>
      if negb (found (lookup inherited formats format)) then
        log (console_error "Format not available:") (ret tt)
      else
        let textToCopy := text_of (lookup inherited formats format) in
        try_catchM World
          (bindM World (write_step formats format textToCopy)
             (fun _ => showCopiedFeedback button))
          (fun err =>
             log (console_error "Copy failed:")
               (showErrorFeedback "Failed to copy to clipboard"))
  end.

End WithBrowser.

End PopupUI.

(** ** A popup session, to run init and the copy buttons *)
Module Session.
Import JS Completion Content Popup PopupUI.

(** How init leaves the popup: with no formats and the error shown, or
    with formats, the issue shown and every button enabled. *)
Definition settled (st st' : State) : Prop :=
  match issueFormats st' with
  | None => ui st' = showError (ui st)
  | Some _ =>
      exists d, truthy (key d) = true
                /\ ui st' = enableButtons (showIssueInfo d (ui st))
  end.

(** The same, as the user of the popup sees it. *)
Definition consistent (st st' : State) : Prop :=
  match issueFormats st' with
  | None =>
      error_message_hidden (ui st') = false
      /\ issue_info_hidden (ui st') = true
      /\ button_group_hidden (ui st') = true
      /\ copy_buttons (ui st') = copy_buttons (ui st)
  | Some _ =>
      error_message_hidden (ui st') = true
      /\ issue_info_hidden (ui st') = false
      /\ issue_key (ui st') <> EmptyString
      /\ Forall (fun b => disabled b = false /\ listening b = true)
           (copy_buttons (ui st'))
      /\ map format (copy_buttons (ui st'))
         = map format (copy_buttons (ui st))
  end.

(** A browser in which the content script does not answer at first. *)
Definition tabs_sendMessage_unanswered (tabId : nat) (action : string)
  : Browser.M (option Messaging.Response) :=
  fun w => (Throw (TypeError "Could not establish connection."), w).

(** An object without inherited properties of the names asked. *)
Definition nothing_inherited (name : string) : option string := None.

Definition say (msg : string) (w : Browser.World) : Browser.World :=
  {| Browser.clipboard := Browser.clipboard w;
     Browser.console := (Browser.console w ++ [msg])%list |}.

Definition board_tab : PageAction.Tab :=
  {| PageAction.id := 7;
     PageAction.url :=
       Str "https://x.atlassian.net/jira/software/p/boards/1?selectedIssue=ab-12" |}.

Definition board_page : Page :=
  Browser.page_at
    "https://x.atlassian.net/jira/software/p/boards/1?selectedIssue=ab-12"
    "[AB-12] Fix the bug - Jira" [].

Definition tabs_query : Browser.M (list PageAction.Tab) :=
  fun w => (Normal [board_tab], w).

(** The content script of [board_page] answers. *)
Definition tabs_sendMessage (tabId : nat) (action : string)
  : Browser.M (option Messaging.Response) :=
  fun w =>
    (Normal (Messaging.onMessage Browser.URLSearchParams (Str action) board_page),
     w).

Definition tabs_executeScript (tabId : nat) (file : string) : Browser.M unit :=
  fun w => (Normal tt, w).

Definition showCopiedFeedback (button : Button) : Browser.M unit :=
  fun w => (Normal tt, say "Copied to clipboard!" w).

Definition showErrorFeedback (msg : string) : Browser.M unit :=
  fun w => (Normal tt, say msg w).

(** A clipboard that rejects plain-text writes. *)
Definition writeText_denied (s : string) : Browser.M unit :=
  fun w => (Throw (DOMException "NotAllowedError"), w).

Definition fresh_popup : State :=
  {| issueFormats := None;
     ui := {| issue_info_hidden := true;
              error_message_hidden := true;
              button_group_hidden := false;
              issue_key := EmptyString;
              issue_summary := EmptyString;
              copy_buttons :=
                [ {| format := "plainText"; disabled := true; listening := false |};
                  {| format := "markdown"; disabled := true; listening := false |};
                  {| format := "markdownShort"; disabled := true;
                     listening := false |};
                  {| format := "html"; disabled := true; listening := false |} ] |} |}.

Definition empty_world : Browser.World :=
  {| Browser.clipboard := Browser.Nothing; Browser.console := [] |}.

Definition sample_formats : Formats :=
  {| plainText := "AB-12 - Fix the bug";
     markdown := "[AB-12 - Fix the bug](https://x.atlassian.net/browse/AB-12)";
     markdownShort := "[AB-12](https://x.atlassian.net/browse/AB-12)";
     html := "<a href=" ++ dquote ++ "https://x.atlassian.net/browse/AB-12"
             ++ dquote ++ ">AB-12 - Fix the bug</a>" |}.

End Session.

(** ** URLs with an identifiable issue, described without the patterns *)
Module Described.
Import JS RegExp Background Shape.

(** The characters of the literal /browse/. *)
Definition browse_letter (x : ascii) : bool :=
  existsb (Ascii.eqb x)
    ["/"%char; "b"%char; "r"%char; "o"%char; "w"%char; "s"%char; "e"%char].

(** A path in which /browse/<KEY> occurs; the word may be in any case. *)
Definition browse_path (p : string) : Prop :=
  exists pre b k post,
    p = pre ++ b ++ k ++ post /\ toLowerCase b = "/browse/" /\ key_text k.

(** A path in which /jira/software/<proj>/boards/<id> occurs, followed by
    the end of the path (after an optional slash), by /backlog or by
    /timeline. *)
Definition view_in_path (p : string) : Prop :=
  exists pre proj id rest,
    p = pre ++ ("/jira/software/" ++ proj ++ "/boards/" ++ id) ++ rest
    /\ nonempty proj = true /\ all_chars not_slash proj = true
    /\ nonempty id = true /\ all_chars is_digit id = true
    /\ (rest = EmptyString \/ rest = "/"
        \/ (exists r, rest = "/backlog" ++ r)
        \/ (exists r, rest = "/timeline" ++ r)).

Definition identifiable_url (u : URL) : Prop :=
  (exists a, hostname u = a ++ ".atlassian.net")
  /\ (browse_path (pathname u)
      \/ (In "selectedIssue" (map fst (searchParams u))
          /\ ((exists q, pathname u = "/jira/" ++ q)
              \/ view_in_path (pathname u)))).

End Described.

(** * Facts about strings *)
Section StringFacts.
Import JS.

Lemma append_nil_r (s : string) : s ++ EmptyString = s.
Proof. induction s; simpl; congruence. Qed.

Lemma append_assoc (a b c : string) : (a ++ b) ++ c = a ++ (b ++ c).
Proof. induction a; simpl; congruence. Qed.

Lemma length_append (a b : string) :
  String.length (a ++ b) = String.length a + String.length b.
Proof. induction a; simpl; congruence. Qed.

Lemma substring_append (m rest : string) :
  substring 0 (String.length m) (m ++ rest) = m.
Proof.
  induction m as [|c m IH]; simpl.
  - destruct rest; reflexivity.
  - now rewrite IH.
Qed.

Lemma prefix_append (p s : string) : prefix p (p ++ s) = true.
Proof.
  induction p as [|c p IH]; simpl.
  - destruct s; reflexivity.
  - destruct (ascii_dec c c); [assumption | congruence].
Qed.

End StringFacts.

(** * The matcher finds every match *)
Section MatcherComplete.
Import JS RegExp Shape.

Lemma star_greedy_complete p m : forall pos rest k,
  all_chars p m = true ->
  k (pos + String.length m) rest <> None ->
  star_greedy p pos (m ++ rest) k <> None.
Proof.
  induction m as [|c m IH]; intros pos rest k Hall Hk; simpl in *.
  - rewrite Nat.add_0_r in Hk.
    destruct rest as [|c r]; simpl; auto.
    destruct (p c); auto.
    destruct (star_greedy p (S pos) r k); [discriminate | auto].
  - apply andb_true_iff in Hall as [Hc Hall]. rewrite Hc.
    specialize (IH (S pos) rest k Hall).
    replace (S pos + String.length m) with (pos + S (String.length m)) in IH
      by lia.
    specialize (IH Hk).
    destruct (star_greedy p (S pos) (m ++ rest) k); [discriminate | congruence].
Qed.

Lemma star_lazy_complete p m : forall pos rest k,
  all_chars p m = true ->
  k (pos + String.length m) rest <> None ->
  star_lazy p pos (m ++ rest) k <> None.
Proof.
  induction m as [|c m IH]; intros pos rest k Hall Hk; simpl in *.
  - rewrite Nat.add_0_r in Hk.
    destruct rest; simpl; destruct (k pos _); congruence.
  - apply andb_true_iff in Hall as [Hc Hall]. rewrite Hc.
    destruct (k pos _); [discriminate|].
    apply IH; auto.
    now replace (S pos + String.length m) with (pos + S (String.length m))
      by lia.
Qed.

Lemma rmatch_complete ci r pos m rest cs cs' :
  matches ci r pos m rest cs cs' ->
  forall (k : cont) (cs0 : captures),
    (forall cs'', k (pos + String.length m) rest cs'' <> None) ->
    rmatch ci r pos (m ++ rest) cs0 k <> None.
Proof.
  induction 1; intros k cs0 Hk; simpl in *.
  - rewrite Nat.add_0_r in Hk. apply Hk.
  - rewrite H. replace (S pos) with (pos + 1) by lia. apply Hk.
  - rewrite append_assoc. apply IHmatches1. intros cs''.
    apply IHmatches2. intros cs3.
    rewrite length_append, Nat.add_assoc in Hk. apply Hk.
  - apply star_greedy_complete; auto.
  - apply star_lazy_complete; auto.
  - specialize (IHmatches k cs0 Hk).
    destruct (rmatch ci r pos (m ++ rest) cs0 k); [discriminate | congruence].
  - rewrite Nat.add_0_r in Hk.
    destruct (rmatch ci r pos rest cs0 k); [discriminate | apply Hk].
  - apply IHmatches. intros cs''. apply Hk.
  - apply Hk.
  - rewrite Nat.add_0_r in Hk. apply Hk.
Qed.

Lemma search_complete ci r pre : forall pos m rest cs',
  matches ci r (pos + String.length pre) m rest [] cs' ->
  search ci r pos (pre ++ m ++ rest) <> None.
Proof.
  induction pre as [|c pre IH]; intros pos m rest cs' Hm; simpl in *.
  - rewrite Nat.add_0_r in Hm.
    assert (Hr : rmatch ci r pos (m ++ rest) [] accept <> None).
    { eapply rmatch_complete; eauto. intros; discriminate. }
    destruct (m ++ rest); simpl;
      destruct (rmatch ci r pos _ [] accept); congruence.
  - destruct (rmatch ci r pos _ [] accept); [discriminate|].
    eapply IH.
    replace (S pos + String.length pre) with (pos + S (String.length pre))
      by lia.
    eassumption.
Qed.

(** A match anywhere in the text makes [test] answer true. *)
Lemma test_complete p pre m rest cs' :
  matches (ignoreCase p) (source p) (String.length pre) m rest [] cs' ->
  test p (pre ++ m ++ rest) = true.
Proof.
  intros Hm. unfold test, exec.
  pose proof (search_complete (ignoreCase p) (source p) pre 0 m rest cs' Hm).
  destruct (search _ _ 0 _); congruence.
Qed.

End MatcherComplete.

(** * Character classes and the shapes the patterns accept *)
Section ShapesMatch.
Import JS RegExp Shape.

Ltac each_char c :=
  destruct c as [[|] [|] [|] [|] [|] [|] [|] [|]]; reflexivity.

Lemma letter_ci c : cset_mem true letter c = is_letter c.
Proof. each_char c. Qed.

Lemma alnum_ci c : cset_mem true alnum c = is_alnum c.
Proof. each_char c. Qed.

Lemma digit_mem ci c : cset_mem ci digit c = is_digit c.
Proof. destruct ci; each_char c. Qed.

Lemma not_slash_mem c : cset_mem false (NotClass [One "/"]) c = not_slash c.
Proof. each_char c. Qed.

Lemma one_mem ci c : cset_mem ci (Class [One c]) c = true.
Proof.
  unfold cset_mem, atom_mem; simpl. now rewrite Ascii.eqb_refl.
Qed.

Lemma all_chars_ext p q s :
  (forall c, p c = q c) -> all_chars p s = all_chars q s.
Proof. intros E; induction s; simpl; [|rewrite E, IHs]; reflexivity. Qed.

Lemma matches_lit ci s : forall pos rest cs,
  matches ci (lit s) pos s rest cs cs.
Proof.
  induction s as [|c s IH]; intros; simpl.
  - constructor.
  - apply (M_Seq ci _ _ pos (String c EmptyString) s rest cs cs cs).
    + constructor. apply one_mem.
    + apply IH.
Qed.

Lemma matches_plus ci a m pos rest cs :
  nonempty m = true -> all_chars (cset_mem ci a) m = true ->
  matches ci (Plus a) pos m rest cs cs.
Proof.
  destruct m as [|c m]; [discriminate|]. intros _ Hall.
  simpl in Hall. apply andb_true_iff in Hall as [Hc Hall].
  apply (M_Seq ci _ _ pos (String c EmptyString) m rest cs cs cs).
  - now constructor.
  - now constructor.
Qed.

Lemma matches_issue_key k pos rest cs :
  key_text k -> matches true issue_key pos k rest cs cs.
Proof.
  intros [c body num Hc Hb1 Hb Hn1 Hn].
  apply (M_Seq true _ _ pos (String c EmptyString) (body ++ "-" ++ num)
           rest cs cs cs).
  { constructor. now rewrite letter_ci. }
  apply (M_Seq true _ _ _ body ("-" ++ num) rest cs cs cs).
  { apply matches_plus; auto.
    now rewrite (all_chars_ext _ is_alnum) by apply alnum_ci. }
  apply (M_Seq true _ _ _ "-" num rest cs cs cs).
  { apply matches_lit. }
  apply matches_plus; auto.
  now rewrite (all_chars_ext _ is_digit) by apply digit_mem.
Qed.

(** A path with /browse/<KEY> somewhere in it passes the first pattern. *)
Lemma browse_found pre k post :
  key_text k ->
  test Background.browse_re (pre ++ "/browse/" ++ k ++ post) = true.
Proof.
  intros Hk.
  replace (pre ++ "/browse/" ++ k ++ post)
    with (pre ++ ("/browse/" ++ k) ++ post)
    by (now rewrite (append_assoc "/browse/")).
  apply (test_complete Background.browse_re pre _ post []).
  apply (M_Seq true _ _ _ "/browse/" k post [] [] []).
  - apply matches_lit.
  - now apply matches_issue_key.
Qed.

Lemma matches_board_prefix proj id pos rest cs :
  nonempty proj = true -> all_chars not_slash proj = true ->
  nonempty id = true -> all_chars is_digit id = true ->
  matches false Background.board_prefix pos
    ("/jira/software/" ++ proj ++ "/boards/" ++ id) rest cs cs.
Proof.
  intros Hp1 Hp Hi1 Hi.
  apply (M_Seq false _ _ _ "/jira/software/" (proj ++ "/boards/" ++ id)
           rest cs cs cs).
  { apply matches_lit. }
  apply (M_Seq false _ _ _ proj ("/boards/" ++ id) rest cs cs cs).
  { apply matches_plus; auto.
    now rewrite (all_chars_ext _ not_slash) by apply not_slash_mem. }
  apply (M_Seq false _ _ _ "/boards/" id rest cs cs cs).
  { apply matches_lit. }
  apply matches_plus; auto.
  now rewrite (all_chars_ext _ is_digit) by apply digit_mem.
Qed.

Lemma matches_opt_slash slash pos rest cs :
  In slash [EmptyString; "/"] ->
  matches false (Opt (lit "/")) pos slash rest cs cs.
Proof.
  intros [<-|[<-|[]]].
  - apply M_Opt_none.
  - apply M_Opt_some, matches_lit.
Qed.

Lemma matches_view_tail (tail : string) slash pos cs :
  In slash [EmptyString; "/"] ->
  matches false (lit tail >> Opt (lit "/"))%re pos (tail ++ slash)
    EmptyString cs cs.
Proof.
  intros Hs.
  apply (M_Seq false _ _ _ tail slash EmptyString cs cs cs).
  - apply matches_lit.
  - now apply matches_opt_slash.
Qed.

Lemma matches_seq ci r1 r2 pos m m1 m2 rest cs cs1 cs2 :
  m = m1 ++ m2 ->
  matches ci r1 pos m1 (m2 ++ rest) cs cs1 ->
  matches ci r2 (pos + String.length m1) m2 rest cs1 cs2 ->
  matches ci (Seq r1 r2) pos m rest cs cs2.
Proof. intros ->. apply M_Seq. Qed.

Lemma matches_board_end slash pos cs :
  In slash [EmptyString; "/"] ->
  matches false (Opt (lit "/") >> AssertEnd)%re pos slash EmptyString cs cs.
Proof.
  intros Hs.
  apply (matches_seq false _ _ pos slash slash EmptyString EmptyString cs cs cs).
  - now rewrite append_nil_r.
  - now apply matches_opt_slash.
  - constructor.
Qed.

Lemma view_path_split proj id view slash :
  "/jira/software/" ++ proj ++ "/boards/" ++ id ++ view ++ slash
  = EmptyString
    ++ (("/jira/software/" ++ proj ++ "/boards/" ++ id) ++ view ++ slash)
    ++ EmptyString.
Proof. simpl. rewrite append_nil_r. now rewrite !append_assoc. Qed.

(** A path of the documented shape passes one of the three view
    patterns. *)
Lemma view_path_found p : view_path p -> view_found p = true.
Proof.
  intros [proj id view slash Hp1 Hp Hi1 Hi Hv Hs].
  rewrite view_path_split. unfold view_found.
  destruct Hv as [<-|[<-|[<-|[]]]].
  - replace (test Background.board_re _) with true; [reflexivity|].
    symmetry. apply (test_complete Background.board_re EmptyString _ _ []).
    apply (M_Seq false _ _ _ _ _ _ [] [] []).
    + now apply matches_board_prefix.
    + now apply matches_board_end.
  - replace (test Background.backlog_re _) with true;
      [now rewrite orb_true_r|].
    symmetry. apply (test_complete Background.backlog_re EmptyString _ _ []).
    apply (M_Seq false _ _ _ _ _ _ [] [] []).
    + now apply matches_board_prefix.
    + now apply (matches_view_tail "/backlog").
  - replace (test Background.timeline_re _) with true;
      [now rewrite !orb_true_r|].
    symmetry. apply (test_complete Background.timeline_re EmptyString _ _ []).
    apply (M_Seq false _ _ _ _ _ _ [] [] []).
    + now apply matches_board_prefix.
    + now apply (matches_view_tail "/timeline").
Qed.

Lemma view_path_jira p : view_path p -> startsWith p "/jira/" = true.
Proof.
  intros [proj id view slash _ _ _ _ _ _].
  unfold startsWith.
  change ("/jira/software/" ++ proj ++ "/boards/" ++ id ++ view ++ slash)
    with ("/jira/" ++ ("software/" ++ proj ++ "/boards/" ++ id ++ view ++ slash)).
  apply prefix_append.
Qed.

End ShapesMatch.

(** * The classifier of background_script.js *)
Section Classifier.
Import JS RegExp Completion Background Shape.

Variable URL_parse : string -> option URL.

Lemma has_In name params :
  has name params = true <-> In name (map fst params).
Proof.
  unfold has. rewrite existsb_exists, in_map_iff. split.
  - intros [p [Hin E]]. apply String.eqb_eq in E. now exists p.
  - intros [p [E Hin]]. exists p. split; [assumption|].
    now apply String.eqb_eq.
Qed.

(** After the guard and the parse, the answer is decided by the rules. *)
Lemma classify_parsed url u :
  truthy url = true -> URL_parse (to_string url) = Some u ->
  hasIdentifiableIssue URL_parse url
  = Normal
      (if negb (endsWith (hostname u) ".atlassian.net") then false
       else if test browse_re (pathname u) then true
       else if test board_re (pathname u)
            then has "selectedIssue" (searchParams u)
       else if test backlog_re (pathname u)
            then has "selectedIssue" (searchParams u)
       else if test timeline_re (pathname u)
            then has "selectedIssue" (searchParams u)
       else if startsWith (pathname u) "/jira/"
               && has "selectedIssue" (searchParams u) then true
       else false).
Proof.
  intros Ht Hp. unfold hasIdentifiableIssue, new_URL.
  rewrite Ht, Hp. simpl.
  destruct (negb _); [reflexivity|].
  repeat (match goal with |- context [if ?c then _ else _] =>
                            destruct c; try reflexivity end).
Qed.



(** C2: a URL that parses and whose hostname does not end with
    .atlassian.net is rejected, whatever its path, query and fragment. *)
Theorem foreign_host_rejected s u :
  URL_parse s = Some u ->
  endsWith (hostname u) ".atlassian.net" = false ->
  hasIdentifiableIssue URL_parse (Str s) = Normal false.
Proof.
  intros Hp Hh. destruct s as [|c s]; [reflexivity|].
  rewrite (classify_parsed (Str (String c s)) u eq_refl Hp).
  now rewrite Hh.
Qed.

(** C3, amended: on a host ending in .atlassian.net, a path that contains
    /browse/<KEY> is accepted, whatever the query and the fragment. *)
Theorem browse_accepted url u pre k post :
  truthy url = true -> URL_parse (to_string url) = Some u ->
  endsWith (hostname u) ".atlassian.net" = true ->
  pathname u = pre ++ "/browse/" ++ k ++ post -> key_text k ->
  hasIdentifiableIssue URL_parse url = Normal true.
Proof.
  intros Ht Hp Hh Hpath Hk. rewrite (classify_parsed url u Ht Hp).
  now rewrite Hh, Hpath, browse_found.
Qed.

(** C4: null, the empty string and every string that does not parse give
    false; every input gives a boolean and nothing is thrown. *)
Theorem fails_closed :
  (forall url, exists b, hasIdentifiableIssue URL_parse url = Normal b)
  /\ hasIdentifiableIssue URL_parse Null = Normal false
  /\ hasIdentifiableIssue URL_parse (Str EmptyString) = Normal false
  /\ (forall s, URL_parse s = None ->
                hasIdentifiableIssue URL_parse (Str s) = Normal false).
Proof.
  split; [|split; [reflexivity|split; [reflexivity|]]].
  - intros url. destruct (truthy url) eqn:Ht.
    + destruct (URL_parse (to_string url)) as [u|] eqn:Hp.
      * rewrite (classify_parsed url u Ht Hp). eexists. reflexivity.
      * exists false. unfold hasIdentifiableIssue, new_URL.
        now rewrite Ht, Hp.
    + exists false. unfold hasIdentifiableIssue. now rewrite Ht.
  - intros s Hp. unfold hasIdentifiableIssue, new_URL. simpl.
    rewrite Hp. now destruct s.
Qed.

(** C7: a board, backlog or timeline path with selectedIssue present is
    accepted under rule 4, begins with /jira/ and has selectedIssue present,
    so rule 5's condition holds for it too; and on an .atlassian.net host
    every path beginning with /jira/ with selectedIssue present is accepted,
    whatever follows /jira/ (settings and admin pages included). *)
Theorem jira_catch_all :
  (forall u, view_path (pathname u) ->
             has "selectedIssue" (searchParams u) = true ->
             rule4_accepts u = true
             /\ startsWith (pathname u) "/jira/" = true
             /\ rule5_accepts u = true)
  /\ (forall url u,
        truthy url = true -> URL_parse (to_string url) = Some u ->
        endsWith (hostname u) ".atlassian.net" = true ->
        rule5_accepts u = true ->
        hasIdentifiableIssue URL_parse url = Normal true).
Proof.
  unfold rule4_accepts, rule5_accepts. split.
  - intros u Hv Hs.
    now rewrite (view_path_found _ Hv), (view_path_jira _ Hv), Hs.
  - intros url u Ht Hp Hh H5. rewrite (classify_parsed url u Ht Hp).
    rewrite Hh, H5. apply andb_true_iff in H5 as [_ Hs]. rewrite Hs.
    simpl. repeat (match goal with |- context [if ?c then _ else _] =>
                                     destruct c; try reflexivity end).
Qed.

End Classifier.

(** * The classifier on concrete URLs *)
Section ClassifierRuns.
Import JS RegExp Completion Background Shape.


Lemma foreign_host_rejected_witness :
  hasIdentifiableIssue Browser.URL_parse
    (Str "https://notatlassian.net/browse/PROJ-123?selectedIssue=PROJ-123#c")
  = Normal false.
Proof.
  apply (foreign_host_rejected Browser.URL_parse _
           {| hostname := "notatlassian.net";
              pathname := "/browse/PROJ-123";
              searchParams := [("selectedIssue", "PROJ-123")] |}).
  - reflexivity.
  - reflexivity.
Defined.

(** C3 as stated fails: a /browse/<KEY> path on another host. *)
Lemma browse_on_foreign_host :
  Browser.URL_parse "https://example.com/browse/PROJ-123"
  = Some {| hostname := "example.com"; pathname := "/browse/PROJ-123";
            searchParams := [] |}
  /\ test browse_re "/browse/PROJ-123" = true
  /\ hasIdentifiableIssue Browser.URL_parse
       (Str "https://example.com/browse/PROJ-123") = Normal false.
Proof. repeat split. Qed.

Lemma browse_accepted_witness :
  hasIdentifiableIssue Browser.URL_parse
    (Str "https://mycompany.atlassian.net/browse/proj-123?page=x#comment-12345")
  = Normal true.
Proof.
  apply (browse_accepted Browser.URL_parse _
           {| hostname := "mycompany.atlassian.net";
              pathname := "/browse/proj-123";
              searchParams := [("page", "x")] |}
           EmptyString "proj-123" EmptyString).
  - reflexivity.
  - reflexivity.
  - reflexivity.
  - reflexivity.
  - apply (key_text_intro "p" "roj" "123"); reflexivity.
Defined.

Lemma fails_closed_witness :
  hasIdentifiableIssue Browser.URL_parse (Str "not-a-url") = Normal false.
Proof.
  apply (proj2 (proj2 (proj2 (fails_closed Browser.URL_parse)))).
  reflexivity.
Defined.

(** The view patterns are not anchored at the start of the path: they are
    also found in a path that is not a view path and does not begin with
    /jira/. *)
Lemma rule4_accept_outside_jira :
  let u := {| hostname := "x.atlassian.net";
              pathname := "/wiki/jira/software/p/boards/1";
              searchParams := [("selectedIssue", "X-1")] |} in
  Browser.URL_parse
    "https://x.atlassian.net/wiki/jira/software/p/boards/1?selectedIssue=X-1"
  = Some u
  /\ rule4_accepts u = true
  /\ hasIdentifiableIssue Browser.URL_parse
       (Str "https://x.atlassian.net/wiki/jira/software/p/boards/1?selectedIssue=X-1")
     = Normal true
  /\ startsWith (pathname u) "/jira/" = false
  /\ rule5_accepts u = false.
Proof. repeat split. Qed.

Lemma jira_catch_all_witness :
  hasIdentifiableIssue Browser.URL_parse
    (Str "https://mycompany.atlassian.net/jira/software/c/projects/PROJ/settings?selectedIssue=PROJ-123")
  = Normal true.
Proof.
  apply (proj2 (jira_catch_all Browser.URL_parse)
           (Str "https://mycompany.atlassian.net/jira/software/c/projects/PROJ/settings?selectedIssue=PROJ-123")
           {| hostname := "mycompany.atlassian.net";
              pathname := "/jira/software/c/projects/PROJ/settings";
              searchParams := [("selectedIssue", "PROJ-123")] |}).
  - reflexivity.
  - reflexivity.
  - reflexivity.
  - reflexivity.
Defined.

(** The URLs on which the repository's test suite expects the icon. *)
Example suite_shows :
  forallb Browser.shown
    [ "https://mycompany.atlassian.net/browse/PROJ-123";
      "https://mycompany.atlassian.net/browse/ABC-456";
      "https://mycompany.atlassian.net/browse/P2X-789";
      "https://mycompany.atlassian.net/browse/PROJ-123?page=com.atlassian.jira.plugin";
      "https://mycompany.atlassian.net/jira/software/c/projects/PROJ/boards/1?selectedIssue=PROJ-123";
      "https://mycompany.atlassian.net/jira/software/c/projects/PROJ/boards/1?rapidView=1&selectedIssue=PROJ-456";
      "https://mycompany.atlassian.net/jira/software/c/projects/PROJ/boards/1/?selectedIssue=PROJ-789";
      "https://mycompany.atlassian.net/jira/software/projects/ABC/boards/42?selectedIssue=ABC-100";
      "https://mycompany.atlassian.net/jira/software/c/projects/PROJ/boards/1/backlog?selectedIssue=PROJ-123";
      "https://mycompany.atlassian.net/jira/software/c/projects/PROJ/boards/1/backlog?modal=detail&selectedIssue=PROJ-456&view=planning";
      "https://mycompany.atlassian.net/jira/software/c/projects/PROJ/boards/1/backlog/?selectedIssue=PROJ-789";
      "https://mycompany.atlassian.net/jira/software/c/projects/PROJ/boards/1/timeline?selectedIssue=PROJ-123";
      "https://mycompany.atlassian.net/jira/software/c/projects/PROJ/boards/1/timeline?selectedIssue=PROJ-456&epic=PROJ-100";
      "https://mycompany.atlassian.net/jira/software/c/projects/PROJ/boards/1/timeline/?selectedIssue=PROJ-789";
      "https://mycompany.atlassian.net/jira/projects/PROJ/issues?selectedIssue=PROJ-123";
      "https://mycompany.atlassian.net/jira/dashboards/12345?selectedIssue=PROJ-456";
      "https://mycompany.atlassian.net/browse/PROJ-123#comment-12345";
      "https://mycompany.atlassian.net/jira/software/c/projects/PROJ/settings?selectedIssue=PROJ-123";
      "https://mycompany.atlassian.net/jira/software/c/projects/PROJ/boards/1?selectedIssue=invalid";
      "https://mycompany.atlassian.net/jira/software/c/projects/PROJ/boards/1/reports?selectedIssue=PROJ-123";
      "https://anothercompany.atlassian.net/browse/PROJ-123";
      "https://test-env.atlassian.net/jira/software/c/projects/PROJ/boards/1?selectedIssue=PROJ-123" ]
  = true.
Proof. reflexivity. Qed.

(** The URLs on which the test suite expects no icon. *)
Example suite_hides :
  existsb Browser.shown
    [ "https://mycompany.atlassian.net/jira/software/c/projects/PROJ/boards/1";
      "https://mycompany.atlassian.net/jira/software/c/projects/PROJ/boards/1/";
      "https://mycompany.atlassian.net/jira/software/c/projects/PROJ/boards/1/backlog";
      "https://mycompany.atlassian.net/jira/software/c/projects/PROJ/boards/1/backlog/";
      "https://mycompany.atlassian.net/jira/software/c/projects/PROJ/boards/1/timeline";
      "https://mycompany.atlassian.net/jira/software/c/projects/PROJ/boards/1/timeline/";
      "https://mycompany.atlassian.net/jira/projects/PROJ/issues";
      "https://example.com/browse/PROJ-123";
      "https://notatlassian.net/browse/PROJ-123";
      EmptyString;
      "not-a-url";
      "https://mycompany.atlassian.net/jira/software/c/projects/PROJ/settings";
      "https://mycompany.atlassian.net/jira/settings/projects/PROJ";
      "https://mycompany.atlassian.net/jira/software/c/projects/PROJ/boards/1/reports" ]
  = false.
Proof. reflexivity. Qed.

End ClassifierRuns.

(** * The format generator *)
Section FormatGenerator.
Import JS Content Shape.

Lemma all_chars_append p a b :
  all_chars p (a ++ b) = all_chars p a && all_chars p b.
Proof.
  induction a as [|c a IH]; simpl; [reflexivity|].
  now rewrite IH, andb_assoc.
Qed.

Lemma escape_char_no_angle c : all_chars no_angle (escape_char c) = true.
Proof. destruct c as [[|] [|] [|] [|] [|] [|] [|] [|]]; reflexivity. Qed.

(** The escaped text has no angle bracket left. *)
Lemma escapeHtml_no_angle text : all_chars no_angle (escapeHtml text) = true.
Proof.
  induction text as [|c text IH]; simpl; [reflexivity|].
  now rewrite all_chars_append, escape_char_no_angle, IH.
Qed.

(** C5, amended: for a key that is a non-empty string, generateFormats
    gives the four strings, the title being <key> - <summary> when the
    summary is a non-empty string and the bare key otherwise; for a key
    that is null, undefined or the empty string it gives null. *)
Theorem generateFormats_spec :
  (forall d : IssueData,
      match key d with
      | Str (String c k') =>
          let k := String c k' in
          let title :=
            match summary d with
            | Str (String c' s') => k ++ " - " ++ String c' s'
            | _ => k
            end in
          generateFormats d
          = Some {| plainText := title;
                    markdown := "[" ++ title ++ "](" ++ url d ++ ")";
                    markdownShort := "[" ++ k ++ "](" ++ url d ++ ")";
                    html := "<a href=" ++ dquote ++ url d ++ dquote ++ ">"
                            ++ escapeHtml title ++ "</a>" |}
          /\ all_chars no_angle (escapeHtml title) = true
      | _ => generateFormats d = None
      end)
  /\ generateFormats
       {| key := Str "PROJ-123"; summary := Str "Fix bug";
          url := "https://x.atlassian.net/browse/PROJ-123" |}
     = Some {| plainText := "PROJ-123 - Fix bug";
               markdown :=
                 "[PROJ-123 - Fix bug](https://x.atlassian.net/browse/PROJ-123)";
               markdownShort :=
                 "[PROJ-123](https://x.atlassian.net/browse/PROJ-123)";
               html := "<a href=" ++ dquote
                       ++ "https://x.atlassian.net/browse/PROJ-123" ++ dquote
                       ++ ">PROJ-123 - Fix bug</a>" |}.
Proof.
  split; [|reflexivity].
  intros [k s u]. simpl.
  destruct k as [| |[|c k']]; try reflexivity.
  split; [|apply escapeHtml_no_angle].
  destruct s as [| |[|c' s']]; reflexivity.
Qed.

(** C5 as stated fails on a summary that is the empty string, which is
    not null: the title is the bare key, not <key> - <summary>. *)
Lemma generateFormats_empty_summary :
  let d := {| key := Str "PROJ-123"; summary := Str EmptyString;
              url := "https://x.atlassian.net/browse/PROJ-123" |} in
  summary d <> Null
  /\ option_map plainText (generateFormats d) = Some "PROJ-123"
  /\ option_map plainText (generateFormats d)
     <> Some (to_string (key d) ++ " - " ++ to_string (summary d)).
Proof. repeat split; discriminate. Qed.

(** The same for a key that is the empty string: the result is null. *)
Lemma generateFormats_empty_key :
  generateFormats
    {| key := Str EmptyString; summary := Str "Fix bug";
       url := "https://x.atlassian.net/jira/your-work" |} = None.
Proof. reflexivity. Qed.

(** C10: in a result of generateFormats the url is the target of both
    Markdown links and the href of the anchor, character for character;
    only the anchor's text goes through escapeHtml. *)
Theorem url_verbatim (d : IssueData) (f : Formats) :
  generateFormats d = Some f ->
  html f = "<a href=" ++ dquote ++ url d ++ dquote ++ ">"
           ++ escapeHtml (plainText f) ++ "</a>"
  /\ markdown f = "[" ++ plainText f ++ "](" ++ url d ++ ")"
  /\ markdownShort f = "[" ++ to_string (key d) ++ "](" ++ url d ++ ")".
Proof.
  unfold generateFormats. destruct (negb (truthy (key d))); [discriminate|].
  intros E. injection E as <-. repeat split.
Qed.

Lemma url_verbatim_witness :
  let u := "https://x.atlassian.net/browse/AB-1?q=" ++ dquote ++ "<b>&amp" in
  let d := {| key := Str "AB-1"; summary := Str "a<b"; url := u |} in
  let f := {| plainText := "AB-1 - a<b";
              markdown := "[AB-1 - a<b](" ++ u ++ ")";
              markdownShort := "[AB-1](" ++ u ++ ")";
              html := "<a href=" ++ dquote ++ u ++ dquote
                      ++ ">AB-1 - a&lt;b</a>" |} in
  html f = "<a href=" ++ dquote ++ url d ++ dquote ++ ">"
           ++ escapeHtml (plainText f) ++ "</a>"
  /\ markdown f = "[" ++ plainText f ++ "](" ++ url d ++ ")"
  /\ markdownShort f = "[" ++ to_string (key d) ++ "](" ++ url d ++ ")".
Proof.
  intros u d f. apply (url_verbatim d f). reflexivity.
Defined.

End FormatGenerator.

(** * The url of the extracted issue *)
Section ExtractedUrl.
Import JS RegExp Content.

Variable URLSearchParams : string -> list (string * string).

Lemma key_loop_url page selectors d :
  url (key_loop page selectors d) = url d.
Proof.
  induction selectors as [|sel rest IH]; cbn [key_loop]; [reflexivity|].
  destruct (querySelector page sel); [|assumption].
  destruct (exec text_key_re _); [reflexivity | assumption].
Qed.

Lemma summary_loop_url page selectors d :
  url (summary_loop page selectors d) = url d.
Proof.
  induction selectors as [|sel rest IH]; cbn [summary_loop]; [reflexivity|].
  destruct (querySelector page sel); [|assumption].
  destruct (truthy _); [reflexivity | assumption].
Qed.

Lemma strategy_url_url page d : url (strategy_url page d) = url d.
Proof. unfold strategy_url. now destruct (exec _ _). Qed.

Lemma strategy_param_url page d :
  url (strategy_param URLSearchParams page d) = url d.
Proof.
  unfold strategy_param. destruct (negb _); [|reflexivity].
  now destruct (_ && _).
Qed.

Lemma strategy_breadcrumb_url page d :
  url (strategy_breadcrumb page d) = url d.
Proof.
  unfold strategy_breadcrumb. destruct (negb _); [|reflexivity].
  now destruct (querySelector _ _).
Qed.

Lemma strategy_selectors_url page d :
  url (strategy_selectors page d) = url d.
Proof.
  unfold strategy_selectors. destruct (negb _); [|reflexivity].
  apply key_loop_url.
Qed.

Lemma strategy_title_url page d : url (strategy_title page d) = url d.
Proof.
  unfold strategy_title. destruct (_ && _); [|reflexivity].
  destruct (exec _ _); [|reflexivity].
  now destruct (negb _).
Qed.

(** The url follows the test [if (data.key)]: for a key that is a non-empty
    string it is <origin>/browse/<key>, which need not be the page's URL;
    otherwise it is the page's URL. *)
Theorem extracted_url :
  (forall page,
      let d := extractIssueData URLSearchParams page in
      match key d with
      | Str (String c k) => url d = origin page ++ "/browse/" ++ String c k
      | _ => url d = href page
      end)
  /\ (exists page,
        let d := extractIssueData URLSearchParams page in
        key d = Str "AB-1"
        /\ url d = "https://x.atlassian.net/browse/AB-1"
        /\ url d <> href page).
Proof.
  split.
  - intros page. unfold extractIssueData.
    set (d6 := strategy_title page _).
    assert (Hu : url d6 = href page).
    { unfold d6.
      now rewrite strategy_title_url, summary_loop_url,
        strategy_selectors_url, strategy_breadcrumb_url,
        strategy_param_url, strategy_url_url. }
    unfold canonical_url. destruct d6 as [k s u]. simpl in *.
    destruct k as [| |[|c k]]; simpl; auto.
  - exists {| href := "https://x.atlassian.net/browse/ab-1?focusedCommentId=7";
              search := "?focusedCommentId=7";
              origin := "https://x.atlassian.net";
              title := EmptyString;
              querySelector := fun _ => None |}.
    repeat split. discriminate.
Qed.

End ExtractedUrl.

(** * extractIssueData on concrete pages *)
Section ExtractRuns.
Import JS RegExp Content Shape.

(** C9: a key was determined, so the url should be <origin>/browse/<key>;
    but a blank breadcrumb link makes the unchecked breadcrumb assignment
    store the key [""], which is not null, and the url is left as the page's
    URL. *)
Lemma blank_breadcrumb_url :
  let page :=
    Browser.page_at "https://x.atlassian.net/jira/software/p/boards/1"
      "Board" [(breadcrumb_link, "   ")] in
  let d := extractIssueData Browser.URLSearchParams page in
  key d = Str EmptyString
  /\ key d <> Null
  /\ url d = href page
  /\ url d <> origin page ++ "/browse/" ++ to_string (key d).
Proof. repeat split; discriminate. Qed.

(** C6: the text of the breadcrumb link becomes the key as it is, without
    the pattern and without the upper case. *)
Theorem breadcrumb_key_unchecked :
  let page :=
    Browser.page_at "https://x.atlassian.net/jira/software/p/boards/1"
      "Board" [(breadcrumb_link, " proj-123 ")] in
  let d := extractIssueData Browser.URLSearchParams page in
  key d = Str "proj-123"
  /\ test key_pattern "proj-123" = false
  /\ toUpperCase "proj-123" <> "proj-123"
  /\ test key_pattern (toUpperCase "proj-123") = true.
Proof. repeat split. discriminate. Qed.

(** A board with a selected issue: key from the parameter, summary from
    the page title. *)
Example extract_selected_issue :
  extractIssueData Browser.URLSearchParams
    (Browser.page_at
       "https://x.atlassian.net/jira/software/p/boards/1?selectedIssue=ab-12"
       "[AB-12] Fix the bug - Jira" [])
  = {| key := Str "AB-12"; summary := Str "Fix the bug";
       url := "https://x.atlassian.net/browse/AB-12" |}.
Proof. reflexivity. Qed.

(** Key and summary from the elements of the page. *)
Example extract_from_elements :
  extractIssueData Browser.URLSearchParams
    (Browser.page_at "https://x.atlassian.net/jira/your-work" "Your work"
       [("#key-val", "see abc-77 now"); ("#summary-val", " A <b> & c ")])
  = {| key := Str "ABC-77"; summary := Str "A <b> & c";
       url := "https://x.atlassian.net/browse/ABC-77" |}.
Proof. reflexivity. Qed.

End ExtractRuns.

(** * Every answer of the matcher is a match *)
Section MatcherSound.
Import JS RegExp Shape.

Lemma star_greedy_sound p s : forall pos k res,
  star_greedy p pos s k = Some res ->
  exists m rest,
    s = m ++ rest /\ all_chars p m = true
    /\ k (pos + String.length m) rest = Some res.
Proof.
  induction s as [|c s IH]; intros pos k res H; simpl in H.
  - exists EmptyString, EmptyString. now rewrite Nat.add_0_r.
  - assert (Stop : k pos (String c s) = Some res ->
                   exists m rest,
                     String c s = m ++ rest /\ all_chars p m = true
                     /\ k (pos + String.length m) rest = Some res).
    { intros Hk. exists EmptyString, (String c s).
      now rewrite Nat.add_0_r. }
    destruct (p c) eqn:Hc; [|auto].
    destruct (star_greedy p (S pos) s k) eqn:Hs; [|auto].
    injection H as <-.
    destruct (IH _ _ _ Hs) as (m & rest & -> & Hall & Hk).
    exists (String c m), rest. simpl. rewrite Hc, Hall.
    now replace (pos + S (String.length m)) with (S pos + String.length m)
      by lia.
Qed.

Lemma star_lazy_sound p s : forall pos k res,
  star_lazy p pos s k = Some res ->
  exists m rest,
    s = m ++ rest /\ all_chars p m = true
    /\ k (pos + String.length m) rest = Some res.
Proof.
  induction s as [|c s IH]; intros pos k res H; simpl in H.
  - exists EmptyString, EmptyString. rewrite Nat.add_0_r.
    destruct (k pos EmptyString); [auto | discriminate].
  - destruct (k pos (String c s)) eqn:Hk.
    + injection H as <-. exists EmptyString, (String c s).
      now rewrite Nat.add_0_r.
    + destruct (p c) eqn:Hc; [|discriminate].
      destruct (IH _ _ _ H) as (m & rest & -> & Hall & Hk').
      exists (String c m), rest. simpl. rewrite Hc, Hall.
      now replace (pos + S (String.length m)) with (S pos + String.length m)
        by lia.
Qed.

Lemma rmatch_sound ci r : forall pos s cs (k : cont) res,
  rmatch ci r pos s cs k = Some res ->
  exists m rest cs',
    s = m ++ rest /\ matches ci r pos m rest cs cs'
    /\ k (pos + String.length m) rest cs' = Some res.
Proof.
  induction r as [|a|r1 IH1 r2 IH2|a|a|r1 IH1|n r1 IH1| |];
    intros pos s cs k res H; simpl in H.
  - exists EmptyString, s, cs. rewrite Nat.add_0_r.
    repeat split; [constructor | assumption].
  - destruct s as [|c s]; [discriminate|].
    destruct (cset_mem ci a c) eqn:Hc; [|discriminate].
    exists (String c EmptyString), s, cs.
    replace (pos + String.length (String c EmptyString)) with (S pos)
      by (simpl; lia).
    repeat split; [now constructor | assumption].
  - destruct (IH1 _ _ _ _ _ H) as (m1 & rest1 & cs1 & -> & Hm1 & H2).
    destruct (IH2 _ _ _ _ _ H2) as (m2 & rest2 & cs2 & -> & Hm2 & Hk).
    exists (m1 ++ m2), rest2, cs2.
    rewrite append_assoc, length_append, Nat.add_assoc.
    repeat split; [|assumption]. now apply M_Seq with (cs1 := cs1).
  - destruct (star_greedy_sound _ _ _ _ _ H) as (m & rest & -> & Hall & Hk).
    exists m, rest, cs. repeat split; [now constructor | assumption].
  - destruct (star_lazy_sound _ _ _ _ _ H) as (m & rest & -> & Hall & Hk).
    exists m, rest, cs. repeat split; [now constructor | assumption].
  - destruct (rmatch ci r1 pos s cs k) eqn:H1.
    + injection H as <-.
      destruct (IH1 _ _ _ _ _ H1) as (m & rest & cs' & -> & Hm & Hk).
      exists m, rest, cs'. repeat split; [now constructor | assumption].
    + exists EmptyString, s, cs. rewrite Nat.add_0_r.
      repeat split; [apply M_Opt_none | assumption].
  - destruct (IH1 _ _ _ _ _ H) as (m & rest & cs' & -> & Hm & Hk).
    replace (pos + String.length m - pos) with (String.length m) in Hk
      by lia.
    rewrite substring_append in Hk.
    exists m, rest, ((n, m) :: cs').
    repeat split; [now constructor | assumption].
  - destruct (pos =? 0) eqn:E; [|discriminate].
    apply Nat.eqb_eq in E. subst pos.
    exists EmptyString, s, cs. repeat split; [constructor | assumption].
  - destruct s; [|discriminate].
    exists EmptyString, EmptyString, cs. rewrite Nat.add_0_r.
    repeat split; [constructor | assumption].
Qed.

Lemma search_sound ci r s : forall pos res,
  search ci r pos s = Some res ->
  exists pre m rest,
    s = pre ++ m ++ rest
    /\ matches ci r (pos + String.length pre) m rest [] res.
Proof.
  assert (Here : forall pos s res,
             rmatch ci r pos s [] accept = Some res ->
             exists pre m rest,
               s = pre ++ m ++ rest
               /\ matches ci r (pos + String.length pre) m rest [] res).
  { intros pos s0 res H.
    destruct (rmatch_sound _ _ _ _ _ _ _ H) as (m & rest & cs' & -> & Hm & Hk).
    injection Hk as <-.
    exists EmptyString, m, rest. now rewrite Nat.add_0_r. }
  induction s as [|c s IH]; intros pos res H; simpl in H.
  - destruct (rmatch ci r pos EmptyString [] accept) eqn:E; [|discriminate].
    injection H as <-. now apply Here.
  - destruct (rmatch ci r pos (String c s) [] accept) eqn:E.
    + injection H as <-. now apply Here.
    + destruct (IH _ _ H) as (pre & m & rest & -> & Hm).
      exists (String c pre), m, rest. split; [reflexivity|].
      now replace (pos + String.length (String c pre))
        with (S pos + String.length pre) by (simpl; lia).
Qed.

(** What [exec] returns are the captures of a match in the text. *)
Lemma exec_sound p s res :
  exec p s = Some res ->
  exists pre m rest,
    s = pre ++ m ++ rest
    /\ matches (ignoreCase p) (source p) (String.length pre) m rest [] res.
Proof. intros H. exact (search_sound _ _ _ _ _ H). Qed.

End MatcherSound.

(** * What the key patterns capture *)
Section KeyCaptures.
Import JS RegExp Content Shape.

Lemma matches_groupless ci r pos m rest cs cs' :
  matches ci r pos m rest cs cs' -> groupless r = true -> cs' = cs.
Proof.
  induction 1; simpl; intros G; try reflexivity; try discriminate.
  - apply andb_true_iff in G as [G1 G2].
    rewrite IHmatches2, IHmatches1; auto.
  - auto.
Qed.

Lemma groupless_lit s : groupless (lit s) = true.
Proof. induction s; simpl; auto. Qed.

Lemma matches_seq_inv ci r1 r2 pos m rest cs cs2 :
  matches ci (Seq r1 r2) pos m rest cs cs2 ->
  exists m1 m2 cs1,
    m = m1 ++ m2
    /\ matches ci r1 pos m1 (m2 ++ rest) cs cs1
    /\ matches ci r2 (pos + String.length m1) m2 rest cs1 cs2.
Proof. inversion 1; subst. now exists m1, m2, cs1. Qed.

Lemma matches_chars_inv ci a pos m rest cs cs' :
  matches ci (Chars a) pos m rest cs cs' ->
  exists c, m = String c EmptyString /\ cset_mem ci a c = true.
Proof. inversion 1; subst. now exists c. Qed.

Lemma matches_plus_inv ci a pos m rest cs cs' :
  matches ci (Plus a) pos m rest cs cs' ->
  nonempty m = true /\ all_chars (cset_mem ci a) m = true.
Proof.
  intros H. apply matches_seq_inv in H as (m1 & m2 & cs1 & -> & H1 & H2).
  apply matches_chars_inv in H1 as (c & -> & Hc).
  inversion H2; subst. simpl. now rewrite Hc.
Qed.

Lemma hyphen_only c : cset_mem true (Class [One "-"]) c = true -> c = "-"%char.
Proof.
  destruct c as [[|] [|] [|] [|] [|] [|] [|] [|]];
    intros H; try discriminate H; reflexivity.
Qed.

Lemma matches_issue_key_inv pos k rest cs cs' :
  matches true issue_key pos k rest cs cs' -> key_text k.
Proof.
  intros H. unfold issue_key in H.
  apply matches_seq_inv in H as (m1 & m2 & cs1 & -> & H1 & H).
  apply matches_chars_inv in H1 as (c & -> & Hc).
  apply matches_seq_inv in H as (body & m3 & cs2 & -> & Hb & H).
  apply matches_plus_inv in Hb as [Hb1 Hb].
  apply matches_seq_inv in H as (h & num & cs3 & -> & Hh & Hn).
  apply matches_plus_inv in Hn as [Hn1 Hn].
  simpl in Hh.
  apply matches_seq_inv in Hh as (h1 & h2 & cs4 & -> & Hh1 & Hh2).
  apply matches_chars_inv in Hh1 as (x & -> & Hx).
  apply hyphen_only in Hx. subst x.
  inversion Hh2; subst. simpl.
  constructor; auto.
  - now rewrite <- letter_ci.
  - now rewrite (all_chars_ext _ _ _ alnum_ci) in Hb.
  - now rewrite (all_chars_ext _ _ _ (digit_mem true)) in Hn.
Qed.

Lemma map_string_append f a b :
  map_string f (a ++ b) = map_string f a ++ map_string f b.
Proof. induction a; simpl; congruence. Qed.

Lemma all_chars_map (p q : ascii -> bool) f s :
  (forall c, p c = true -> q (f c) = true) ->
  all_chars p s = true -> all_chars q (map_string f s) = true.
Proof.
  intros Hf. induction s as [|c s IH]; simpl; [reflexivity|].
  intros H. apply andb_true_iff in H as [Hc Hs].
  now rewrite (Hf c Hc), IH.
Qed.

Lemma upper_letter c : is_letter c = true -> is_upper (upper_char c) = true.
Proof.
  destruct c as [[|] [|] [|] [|] [|] [|] [|] [|]];
    intros H; try discriminate H; reflexivity.
Qed.

Lemma upper_alnum c :
  is_alnum c = true -> is_upper_alnum (upper_char c) = true.
Proof.
  destruct c as [[|] [|] [|] [|] [|] [|] [|] [|]];
    intros H; try discriminate H; reflexivity.
Qed.

Lemma upper_digit c : is_digit c = true -> is_digit (upper_char c) = true.
Proof.
  destruct c as [[|] [|] [|] [|] [|] [|] [|] [|]];
    intros H; try discriminate H; reflexivity.
Qed.

Lemma nonempty_map f s : nonempty (map_string f s) = nonempty s.
Proof. now destruct s. Qed.

(** The upper case of a key read without regard to case is a key. *)
Lemma upper_key k : key_text k -> upper_key_text (toUpperCase k).
Proof.
  intros [c body num Hc Hb1 Hb Hn1 Hn]. unfold toUpperCase. simpl.
  rewrite !map_string_append. simpl.
  constructor.
  - now apply upper_letter.
  - now rewrite nonempty_map.
  - apply (all_chars_map is_alnum); auto using upper_alnum.
  - now rewrite nonempty_map.
  - apply (all_chars_map is_digit); auto using upper_digit.
Qed.

Lemma upper_alnum_fixed c : is_upper_alnum c = true -> upper_char c = c.
Proof.
  destruct c as [[|] [|] [|] [|] [|] [|] [|] [|]];
    intros H; try discriminate H; reflexivity.
Qed.

Lemma map_string_fixed (p : ascii -> bool) f s :
  (forall c, p c = true -> f c = c) ->
  all_chars p s = true -> map_string f s = s.
Proof.
  intros Hf. induction s as [|c s IH]; simpl; [reflexivity|].
  intros H. apply andb_true_iff in H as [Hc Hs].
  now rewrite (Hf c Hc), IH.
Qed.

Lemma upper_case_mem c : cset_mem false letter c = is_upper c.
Proof. destruct c as [[|] [|] [|] [|] [|] [|] [|] [|]]; reflexivity. Qed.

Lemma upper_alnum_mem c : cset_mem false alnum c = is_upper_alnum c.
Proof. destruct c as [[|] [|] [|] [|] [|] [|] [|] [|]]; reflexivity. Qed.

(** An upper-case key passes /^[A-Z][A-Z0-9]+-[0-9]+$/ and is its own
    upper case. *)
Lemma upper_key_text_pattern k :
  upper_key_text k -> test key_pattern k = true /\ toUpperCase k = k.
Proof.
  intros [c body num Hc Hb1 Hb Hn1 Hn]. split.
  - set (t := String c (body ++ "-" ++ num)).
    replace t with (EmptyString ++ (EmptyString ++ t ++ EmptyString)
                      ++ EmptyString)
      by (simpl; now rewrite !append_nil_r).
    apply (test_complete key_pattern EmptyString _ _ []).
    apply (M_Seq false _ _ _ EmptyString (t ++ EmptyString) _ [] [] []).
    { constructor. }
    apply (M_Seq false _ _ _ t EmptyString _ [] [] []); [|constructor].
    apply (M_Seq false _ _ _ (String c EmptyString) (body ++ "-" ++ num)
             _ [] [] []).
    { constructor. now rewrite upper_case_mem. }
    apply (M_Seq false _ _ _ body ("-" ++ num) _ [] [] []).
    { apply matches_plus; auto.
      now rewrite (all_chars_ext _ _ _ upper_alnum_mem). }
    apply (M_Seq false _ _ _ "-" num _ [] [] []).
    { apply matches_lit. }
    apply matches_plus; auto.
    now rewrite (all_chars_ext _ _ _ (digit_mem false)).
  - unfold toUpperCase. simpl. rewrite !map_string_append. simpl.
    rewrite (upper_alnum_fixed c) by (unfold is_upper_alnum; now rewrite Hc).
    rewrite (map_string_fixed is_upper_alnum _ body upper_alnum_fixed Hb).
    rewrite (map_string_fixed is_digit _ num); auto.
    intros x Hx. apply upper_alnum_fixed. unfold is_upper_alnum.
    now rewrite Hx, orb_true_r.
Qed.

Lemma matches_group_key pos m rest cs res :
  matches true (Group 1 issue_key) pos m rest cs res ->
  key_text m /\ res = (1, m) :: cs.
Proof.
  inversion 1; subst. split.
  - eapply matches_issue_key_inv; eassumption.
  - f_equal. eapply matches_groupless; [eassumption | reflexivity].
Qed.

(** /\/browse\/([A-Z][A-Z0-9]+-\d+)/i captures a key. *)
Lemma url_key_captured s res :
  exec url_key_re s = Some res -> key_text (capture 1 res).
Proof.
  intros H. apply exec_sound in H as (pre & m & rest & _ & H).
  simpl in H.
  apply matches_seq_inv in H as (m1 & m2 & cs1 & -> & H1 & H2).
  apply matches_group_key in H2 as [Hk ->]. exact Hk.
Qed.

(** /([A-Z][A-Z0-9]+-\d+)/i captures a key. *)
Lemma text_key_captured s res :
  exec text_key_re s = Some res -> key_text (capture 1 res).
Proof.
  intros H. apply exec_sound in H as (pre & m & rest & _ & H).
  simpl in H. apply matches_group_key in H as [Hk ->]. exact Hk.
Qed.

(** /^[A-Z][A-Z0-9]+-\d+$/i passes keys only. *)
Lemma selected_is_key s : test selected_re s = true -> key_text s.
Proof.
  unfold test. destruct (exec selected_re s) as [res|] eqn:H;
    [intros _ | discriminate].
  apply exec_sound in H as (pre & m & rest & -> & H). simpl in H.
  apply matches_seq_inv in H as (m1 & m2 & cs1 & -> & H1 & H2).
  inversion H1; subst.
  apply matches_seq_inv in H2 as (k & m3 & cs2 & -> & Hk & He).
  inversion He; subst.
  destruct pre; [|discriminate]. simpl. rewrite !append_nil_r.
  eapply matches_issue_key_inv; eassumption.
Qed.

(** The title pattern captures a key in its first group. *)
Lemma title_key_captured s res :
  exec title_re s = Some res -> key_text (capture 1 res).
Proof.
  intros H. apply exec_sound in H as (pre & m & rest & _ & H).
  simpl in H.
  apply matches_seq_inv in H as (m1 & m2 & cs1 & -> & H1 & H).
  apply matches_groupless in H1; [subst cs1 | reflexivity].
  apply matches_seq_inv in H as (k & m3 & cs2 & -> & Hk & H).
  apply matches_group_key in Hk as [Hk ->].
  apply matches_seq_inv in H as (m4 & m5 & cs3 & -> & H4 & H).
  apply matches_groupless in H4; [subst cs3 | reflexivity].
  apply matches_seq_inv in H as (m6 & m7 & cs4 & -> & H6 & H).
  apply matches_groupless in H6; [subst cs4 | reflexivity].
  apply matches_seq_inv in H as (m8 & m9 & cs5 & -> & H8 & H).
  inversion H8; subst.
  match goal with
  | Hg : matches _ (PlusLazy Dot) _ _ _ _ _ |- _ =>
      apply matches_groupless in Hg; [subst | reflexivity]
  end.
  apply matches_groupless in H; [subst | reflexivity].
  exact Hk.
Qed.

End KeyCaptures.

(** * The keys of the validating strategies *)
Section ValidatedKeys.
Import JS RegExp Content Shape.

Variable URLSearchParams : string -> list (string * string).

Lemma good_key_upper k : key_text k -> good_key (Str (toUpperCase k)).
Proof. intros H. right. exists (toUpperCase k). auto using upper_key. Qed.

Lemma strategy_url_good page d :
  good_key (key d) -> good_key (key (strategy_url page d)).
Proof.
  intros G. unfold strategy_url.
  destruct (exec url_key_re (href page)) as [m|] eqn:E; [|assumption].
  apply good_key_upper. eapply url_key_captured; eassumption.
Qed.

Lemma strategy_param_good page d :
  good_key (key d) -> good_key (key (strategy_param URLSearchParams page d)).
Proof.
  intros G. unfold strategy_param.
  destruct (negb _); [|assumption].
  destruct (truthy _ && test _ _) eqn:E; [|assumption].
  apply andb_true_iff in E as [_ E].
  apply good_key_upper. now apply selected_is_key.
Qed.

Lemma strategy_breadcrumb_absent page d :
  querySelector page breadcrumb_link = None ->
  strategy_breadcrumb page d = d.
Proof.
  intros H. unfold strategy_breadcrumb. rewrite H. now destruct (negb _).
Qed.

Lemma key_loop_good page selectors d :
  good_key (key d) -> good_key (key (key_loop page selectors d)).
Proof.
  intros G. induction selectors as [|sel rest IH]; cbn [key_loop];
    [assumption|].
  destruct (querySelector page sel) as [text|]; [|assumption].
  destruct (exec text_key_re text) as [m|] eqn:E; [|assumption].
  apply good_key_upper. eapply text_key_captured; eassumption.
Qed.

Lemma strategy_selectors_good page d :
  good_key (key d) -> good_key (key (strategy_selectors page d)).
Proof.
  intros G. unfold strategy_selectors.
  destruct (negb _); [now apply key_loop_good | assumption].
Qed.

Lemma summary_loop_key page selectors d :
  key (summary_loop page selectors d) = key d.
Proof.
  induction selectors as [|sel rest IH]; cbn [summary_loop]; [reflexivity|].
  destruct (querySelector page sel); [|assumption].
  destruct (truthy _); [reflexivity | assumption].
Qed.

Lemma strategy_title_good page d :
  good_key (key d) -> good_key (key (strategy_title page d)).
Proof.
  intros G. unfold strategy_title.
  destruct (_ && _); [|assumption].
  destruct (exec title_re (title page)) as [m|] eqn:E; [|assumption].
  destruct (negb _); [|assumption].
  apply good_key_upper. eapply title_key_captured; eassumption.
Qed.

Lemma canonical_url_key page d : key (canonical_url page d) = key d.
Proof. unfold canonical_url. now destruct (truthy _). Qed.

(** X4: where the page has no breadcrumb link, the returned key is null or
    matches [A-Z][A-Z0-9]+-[0-9]+ in upper case. *)
Lemma validated_key page :
  querySelector page breadcrumb_link = None ->
  match key (extractIssueData URLSearchParams page) with
  | Null => True
  | Undefined => False
  | Str k => test key_pattern k = true /\ toUpperCase k = k
  end.
Proof.
  intros Hb.
  assert (G : good_key (key (extractIssueData URLSearchParams page))).
  { unfold extractIssueData.
    rewrite canonical_url_key. apply strategy_title_good.
    rewrite summary_loop_key. apply strategy_selectors_good.
    rewrite (strategy_breadcrumb_absent _ _ Hb).
    apply strategy_param_good, strategy_url_good. now left. }
  destruct G as [-> | (k & -> & Hk)]; [exact I|].
  now apply upper_key_text_pattern.
Qed.

End ValidatedKeys.

(** * The clipboard fallback *)
Section ClipboardFallback.
Import JS Completion Popup.

Variable World : Type.
Variable ClipboardItem : Type.
Variable new_ClipboardItem : list (string * Blob) -> M World ClipboardItem.
Variable clipboard_write : list ClipboardItem -> M World unit.
Variable clipboard_writeText : string -> M World unit.
Variable console_warn : string -> error -> World -> World.

(** The rich write throws when the ClipboardItem cannot be built or when
    the write itself is rejected, and only then. *)
Lemma rich_write_throws html plainText w e w' :
  rich_write World ClipboardItem new_ClipboardItem clipboard_write
    html plainText w = (Throw e, w') <->
  (new_ClipboardItem
     [("text/html", {| blobParts := [html]; type := "text/html" |});
      ("text/plain", {| blobParts := [plainText]; type := "text/plain" |})] w
   = (Throw e, w'))
  \/ (exists item w1,
        new_ClipboardItem
          [("text/html", {| blobParts := [html]; type := "text/html" |});
           ("text/plain", {| blobParts := [plainText]; type := "text/plain" |})]
          w
        = (Normal item, w1)
        /\ clipboard_write [item] w1 = (Throw e, w')).
Proof.
  unfold rich_write, bindM.
  destruct (new_ClipboardItem _ w) as [[item|e0] w1]; split.
  - intros H. right. now exists item, w1.
  - intros [H | (item' & w1' & H1 & H2)]; [discriminate|].
    injection H1 as E1 E2. subst item' w1'. exact H2.
  - intros H. injection H as -> ->. now left.
  - intros [H | (item' & w1' & H1 & H2)]; [|discriminate].
    now injection H as -> ->.
Qed.

(** C8: when the rich write throws, copyHtmlToClipboard warns and then
    behaves as the plain-text write of the HTML string: the error of the
    rich write is dropped, and the outcome is that of writeText(html). *)
Theorem fallback_writes_html html plainText w e w' :
  rich_write World ClipboardItem new_ClipboardItem clipboard_write
    html plainText w = (Throw e, w') ->
  copyHtmlToClipboard World ClipboardItem new_ClipboardItem clipboard_write
    clipboard_writeText console_warn html plainText w
  = clipboard_writeText html
      (console_warn "ClipboardItem not supported, falling back to text copy:"
         e w')
  /\ (forall w2,
        clipboard_writeText html
          (console_warn
             "ClipboardItem not supported, falling back to text copy:" e w')
        = (Normal tt, w2) ->
        copyHtmlToClipboard World ClipboardItem new_ClipboardItem
          clipboard_write clipboard_writeText console_warn html plainText w
        = (Normal tt, w2)).
Proof.
  intros H.
  assert (E : copyHtmlToClipboard World ClipboardItem new_ClipboardItem
                clipboard_write clipboard_writeText console_warn
                html plainText w
              = clipboard_writeText html
                  (console_warn
                     "ClipboardItem not supported, falling back to text copy:"
                     e w')).
  { unfold copyHtmlToClipboard, try_catchM. now rewrite H. }
  split; [exact E|]. intros w2 Hw. now rewrite E.
Qed.

(** When the rich write succeeds there is no second write. *)
Lemma rich_write_kept html plainText w w' :
  rich_write World ClipboardItem new_ClipboardItem clipboard_write
    html plainText w = (Normal tt, w') ->
  copyHtmlToClipboard World ClipboardItem new_ClipboardItem clipboard_write
    clipboard_writeText console_warn html plainText w
  = (Normal tt, w').
Proof.
  intros H. unfold copyHtmlToClipboard, try_catchM. now rewrite H.
Qed.

End ClipboardFallback.

(** * The clipboard fallback in a context without ClipboardItem *)
Section ClipboardRuns.
Import JS Completion Popup.

Lemma fallback_writes_html_witness :
  let w := {| Browser.clipboard := Browser.Nothing; Browser.console := [] |} in
  let html := "<a href=" ++ dquote ++ "https://x.atlassian.net/browse/AB-1"
              ++ dquote ++ ">AB-1 - Fix</a>" in
  let msg := "ClipboardItem not supported, falling back to text copy:" in
  copyHtmlToClipboard _ _ Browser.no_ClipboardItem Browser.write
    Browser.writeText Browser.console_warn html "AB-1 - Fix" w
  = (Normal tt,
     {| Browser.clipboard := Browser.Text html; Browser.console := [msg] |}).
Proof.
  intros w html msg.
  apply (proj2 (fallback_writes_html _ _ Browser.no_ClipboardItem
                  Browser.write Browser.writeText Browser.console_warn
                  html "AB-1 - Fix" w
                  (ReferenceError "ClipboardItem is not defined") w
                  eq_refl)).
  reflexivity.
Defined.

(** The same when ClipboardItem exists and the rich write is rejected. *)
Example fallback_after_rejected_write :
  let w := {| Browser.clipboard := Browser.Nothing; Browser.console := [] |} in
  copyHtmlToClipboard _ _ Browser.new_ClipboardItem Browser.write_denied
    Browser.writeText Browser.console_warn "<a>AB-1</a>" "AB-1" w
  = (Normal tt,
     {| Browser.clipboard := Browser.Text "<a>AB-1</a>";
        Browser.console :=
          ["ClipboardItem not supported, falling back to text copy:"] |}).
Proof. reflexivity. Qed.

(** Where the rich write works, both representations are written. *)
Example rich_write_succeeds :
  let w := {| Browser.clipboard := Browser.Nothing; Browser.console := [] |} in
  copyHtmlToClipboard _ _ Browser.new_ClipboardItem Browser.write
    Browser.writeText Browser.console_warn "<a>AB-1</a>" "AB-1" w
  = (Normal tt,
     {| Browser.clipboard :=
          Browser.Rich
            [("text/html",
              {| blobParts := ["<a>AB-1</a>"]; type := "text/html" |});
             ("text/plain",
              {| blobParts := ["AB-1"]; type := "text/plain" |})];
        Browser.console := [] |}).
Proof. reflexivity. Qed.

End ClipboardRuns.


(** * The classifier, rule by rule *)
Section ClassifierRules.
Import JS RegExp Completion Background Shape.

Variable URL_parse : string -> option URL.

Lemma classifier_returns url :
  exists b, hasIdentifiableIssue URL_parse url = Normal b.
Proof.
  destruct (truthy url) eqn:Ht.
  - destruct (URL_parse (to_string url)) as [u|] eqn:Hp.
    + rewrite (classify_parsed URL_parse url u Ht Hp). eexists. reflexivity.
    + exists false. unfold hasIdentifiableIssue, new_URL. now rewrite Ht, Hp.
  - exists false. unfold hasIdentifiableIssue. now rewrite Ht.
Qed.

Lemma accepted_parsed url :
  hasIdentifiableIssue URL_parse url = Normal true ->
  truthy url = true /\ exists u, URL_parse (to_string url) = Some u.
Proof.
  unfold hasIdentifiableIssue, new_URL.
  destruct (truthy url); simpl; [|discriminate].
  destruct (URL_parse (to_string url)) as [u|]; simpl; [|discriminate].
  intros _. split; [reflexivity | now exists u].
Qed.

(** The rules of the classifier, collected in one condition on the tests
    it makes. *)
Lemma accepted_iff_tests url :
  hasIdentifiableIssue URL_parse url = Normal true <->
  truthy url = true
  /\ exists u,
       URL_parse (to_string url) = Some u
       /\ endsWith (hostname u) ".atlassian.net" = true
       /\ (test browse_re (pathname u) = true
           \/ (has "selectedIssue" (searchParams u) = true
               /\ (view_found (pathname u) = true
                   \/ startsWith (pathname u) "/jira/" = true))).
Proof.
  split.
  - intros H. destruct (accepted_parsed url H) as [Ht [u Hp]].
    split; [assumption|]. exists u. split; [assumption|].
    rewrite (classify_parsed URL_parse url u Ht Hp) in H.
    unfold view_found.
    destruct (endsWith (hostname u) ".atlassian.net"); simpl in H;
      [split; [reflexivity|] | discriminate].
    destruct (test browse_re (pathname u)); [now left|right].
    destruct (test board_re (pathname u));
      [injection H as H; split; [exact H | now left]|].
    destruct (test backlog_re (pathname u));
      [injection H as H; split; [exact H | now left]|].
    destruct (test timeline_re (pathname u));
      [injection H as H; split; [exact H | now left]|].
    destruct (startsWith (pathname u) "/jira/"); simpl in H; [|discriminate].
    destruct (has "selectedIssue" (searchParams u)); [|discriminate].
    split; [reflexivity | now right].
  - intros [Ht [u [Hp [Hh Hr]]]].
    rewrite (classify_parsed URL_parse url u Ht Hp), Hh. simpl.
    destruct Hr as [Hb | [Hs Hv]]; [now rewrite Hb|].
    rewrite Hs. destruct (test browse_re (pathname u)); [reflexivity|].
    unfold view_found in Hv.
    destruct (test board_re (pathname u)); [reflexivity|].
    destruct (test backlog_re (pathname u)); [reflexivity|].
    destruct (test timeline_re (pathname u)); [reflexivity|].
    destruct Hv as [Hv | Hv]; [discriminate | now rewrite Hv].
Qed.

(** X2: the answer depends on the query only through the presence of
    selectedIssue: two URLs with the same host and path, both with or both
    without selectedIssue, get the same answer whatever their other
    parameters and their values. *)
Theorem other_parameters_ignored url1 url2 u1 u2 :
  truthy url1 = true -> truthy url2 = true ->
  URL_parse (to_string url1) = Some u1 ->
  URL_parse (to_string url2) = Some u2 ->
  hostname u1 = hostname u2 -> pathname u1 = pathname u2 ->
  has "selectedIssue" (searchParams u1) = has "selectedIssue" (searchParams u2) ->
  hasIdentifiableIssue URL_parse url1 = hasIdentifiableIssue URL_parse url2.
Proof.
  intros Ht1 Ht2 Hp1 Hp2 Hh Hpath Hs.
  rewrite (classify_parsed URL_parse url1 u1 Ht1 Hp1).
  rewrite (classify_parsed URL_parse url2 u2 Ht2 Hp2).
  now rewrite Hh, Hpath, Hs.
Qed.

End ClassifierRules.

(** * The page action over the events of the browser *)
Section PageActionRuns.
Import JS RegExp Completion Background PageAction.

Variable URL_parse : string -> option URL.

Lemma updatePageAction_sets tabId url st :
  updatePageAction URL_parse tabId url st
  = Normal (fun t => if t =? tabId then identifiable URL_parse url else st t).
Proof.
  unfold updatePageAction, identifiable.
  destruct (classifier_returns URL_parse url) as [b ->]. simpl.
  destruct b; reflexivity.
Qed.

Lemma last_report_app t l1 l2 :
  last_report t (l1 ++ l2)
  = match last_report t l2 with
    | Some v => Some v
    | None => last_report t l1
    end.
Proof.
  induction l1 as [|[t' u] l1 IH]; simpl.
  - now destruct (last_report t l2).
  - rewrite IH. destruct (last_report t l2); [reflexivity|].
    reflexivity.
Qed.

Lemma follows_one tabId url st :
  follows URL_parse st
    (fun t => if t =? tabId then identifiable URL_parse url else st t)
    [(tabId, url)].
Proof.
  intros t. simpl. rewrite (Nat.eqb_sym t tabId). now destruct (tabId =? t).
Qed.

Lemma follows_none st : follows URL_parse st st [].
Proof. intros t. reflexivity. Qed.

Lemma follows_trans st1 st2 st3 l1 l2 :
  follows URL_parse st1 st2 l1 -> follows URL_parse st2 st3 l2 ->
  follows URL_parse st1 st3 (l1 ++ l2).
Proof.
  intros H1 H2 t. rewrite last_report_app, H2.
  destruct (last_report t l2); [reflexivity | apply H1].
Qed.

Lemma forEach_tab_follows tabs : forall st,
  exists st', forEach_tab URL_parse tabs st = Normal st'
              /\ follows URL_parse st st' (reports (Queried tabs)).
Proof.
  induction tabs as [|tab rest IH]; intros st; simpl.
  - exists st. split; [reflexivity | apply follows_none].
  - destruct (negb (id tab =? 0) && truthy (url tab)); simpl.
    + rewrite updatePageAction_sets. simpl.
      destruct (IH (fun t => if t =? id tab
                             then identifiable URL_parse (url tab) else st t))
        as [st' [E F]].
      exists st'. split; [assumption|].
      apply (follows_trans _ _ _ [(id tab, url tab)] _ (follows_one _ _ _) F).
    + apply IH.
Qed.

Lemma handle_follows e st :
  exists st', handle URL_parse e st = Normal st' /\ follows URL_parse st st' (reports e).
Proof.
  destruct e as [tabId changeInfo tab | got | tabs | request sender]; simpl.
  - unfold onUpdated. destruct (_ || _).
    + rewrite updatePageAction_sets. eexists. split; [reflexivity|].
      apply follows_one.
    + exists st. split; [reflexivity | apply follows_none].
  - unfold onActivated. destruct got as [tab|e]; simpl.
    + rewrite updatePageAction_sets. eexists. split; [reflexivity|].
      apply follows_one.
    + exists st. split; [reflexivity | apply follows_none].
  - apply forEach_tab_follows.
  - unfold onMessage. destruct (sender_tab sender) as [tab|].
    + destruct (is_string _ _).
      * rewrite updatePageAction_sets. eexists. split; [reflexivity|].
        apply follows_one.
      * exists st. split; [reflexivity | apply follows_none].
    + exists st. split; [reflexivity | apply follows_none].
Qed.

Lemma run_follows events : forall st,
  exists st',
    run URL_parse events st = Normal st'
    /\ follows URL_parse st st' (flat_map reports events).
Proof.
  induction events as [|e rest IH]; intros st; simpl.
  - exists st. split; [reflexivity | apply follows_none].
  - destruct (handle_follows e st) as [st1 [E1 F1]]. rewrite E1. simpl.
    destruct (IH st1) as [st2 [E2 F2]].
    exists st2. split; [assumption|].
    exact (follows_trans _ _ _ _ _ F1 F2).
Qed.

(** X3: the listeners never throw, and after any sequence of events the
    page action of a tab is shown exactly when the last URL reported for
    that tab is identifiable; a tab that no event reported keeps its
    state. *)
Theorem page_action_follows_reports events st :
  exists st',
    run URL_parse events st = Normal st'
    /\ forall t,
         st' t = match last_report t (flat_map reports events) with
                 | Some url => identifiable URL_parse url
                 | None => st t
                 end.
Proof.
  destruct (run_follows events st) as [st' [E F]].
  exists st'. split; [exact E|].
  intros t. apply F.
Qed.

End PageActionRuns.

(** * trim *)
Section Trim.
Import JS.

Lemma trimEnd_idempotent s : trimEnd (trimEnd s) = trimEnd s.
Proof.
  induction s as [|c s IH]; simpl; [reflexivity|].
  destruct (trimEnd s) as [|d t] eqn:E.
  - destruct (is_space c) eqn:Hc; simpl; [reflexivity|]. now rewrite Hc.
  - simpl in *. now rewrite IH.
Qed.

Lemma trimEnd_head c s :
  is_space c = false -> exists t, trimEnd (String c s) = String c t.
Proof.
  intros Hc. simpl. destruct (trimEnd s) as [|d t].
  - rewrite Hc. now exists EmptyString.
  - now exists (String d t).
Qed.

Lemma trimStart_head s :
  trimStart s = EmptyString
  \/ exists c t, trimStart s = String c t /\ is_space c = false.
Proof.
  induction s as [|c s IH]; simpl; [now left|].
  destruct (is_space c) eqn:Hc; [assumption|].
  right. now exists c, s.
Qed.

Lemma trim_idempotent s : trim (trim s) = trim s.
Proof.
  unfold trim. destruct (trimStart_head s) as [-> | (c & t & -> & Hc)].
  - reflexivity.
  - destruct (trimEnd_head c t Hc) as [t' E]. rewrite E.
    simpl trimStart. rewrite Hc. rewrite <- E. apply trimEnd_idempotent.
Qed.

End Trim.

(** * The order of the extraction strategies *)
Section StrategyOrder.
Import JS RegExp Content Shape Notions.

Variable URLSearchParams : string -> list (string * string).

Lemma key_text_truthy k : key_text k -> truthy (Str (toUpperCase k)) = true.
Proof. intros [c body num _ _ _ _ _]. reflexivity. Qed.

Lemma strategy_param_found page d :
  truthy (key d) = true -> strategy_param URLSearchParams page d = d.
Proof. intros H. unfold strategy_param. now rewrite H. Qed.

Lemma strategy_breadcrumb_found page d :
  truthy (key d) = true -> strategy_breadcrumb page d = d.
Proof. intros H. unfold strategy_breadcrumb. now rewrite H. Qed.

Lemma strategy_selectors_found page d :
  truthy (key d) = true -> strategy_selectors page d = d.
Proof. intros H. unfold strategy_selectors. now rewrite H. Qed.

Lemma strategy_title_found page d :
  truthy (key d) = true -> key (strategy_title page d) = key d.
Proof.
  intros H. unfold strategy_title. destruct (_ && _); [|reflexivity].
  destruct (exec title_re (title page)); [|reflexivity].
  now rewrite H.
Qed.

Lemma strategy_url_found page d m :
  exec url_key_re (href page) = Some m ->
  strategy_url page d = set_key (Str (toUpperCase (capture 1 m))) d.
Proof. intros E. unfold strategy_url. now rewrite E. Qed.

Lemma strategy_url_missing page d :
  exec url_key_re (href page) = None -> strategy_url page d = d.
Proof. intros E. unfold strategy_url. now rewrite E. Qed.

Lemma strategy_param_selected page d s :
  key d = Null ->
  get "selectedIssue" (URLSearchParams (search page)) = Str s ->
  test selected_re s = true ->
  strategy_param URLSearchParams page d = set_key (Str (toUpperCase s)) d.
Proof.
  intros Hk Hg Hs. unfold strategy_param. rewrite Hk, Hg. simpl.
  rewrite Hs. apply selected_is_key in Hs. now destruct Hs.
Qed.

(** Once a strategy has found a key, the rest of extractIssueData keeps it
    and makes the url canonical. *)
Lemma found_key_kept page d k :
  key d = Str k -> truthy (Str k) = true ->
  let r := canonical_url page
             (strategy_title page
                (summary_loop page summarySelectors
                   (strategy_selectors page (strategy_breadcrumb page d)))) in
  key r = Str k /\ url r = origin page ++ "/browse/" ++ k.
Proof.
  intros Hk Ht.
  assert (Hd : truthy (key d) = true) by now rewrite Hk.
  rewrite strategy_breadcrumb_found, strategy_selectors_found by assumption.
  set (d1 := summary_loop page summarySelectors d).
  assert (H1 : key d1 = Str k) by (unfold d1; now rewrite summary_loop_key).
  set (d2 := strategy_title page d1).
  assert (H2 : key d2 = Str k).
  { unfold d2. rewrite strategy_title_found; [assumption | now rewrite H1]. }
  simpl. unfold canonical_url. rewrite H2, Ht. simpl. now rewrite H2.
Qed.

(** X5: a key in the page URL wins: when /\/browse\/(KEY)/i is found in
    location.href, the returned key is the upper case of what it captured
    and the url is <origin>/browse/<key>, whatever the query, the elements
    and the title of the page say. *)
Theorem url_key_wins page m :
  exec url_key_re (href page) = Some m ->
  key (extractIssueData URLSearchParams page) = Str (toUpperCase (capture 1 m))
  /\ url (extractIssueData URLSearchParams page)
     = origin page ++ "/browse/" ++ toUpperCase (capture 1 m).
Proof.
  intros E. unfold extractIssueData.
  assert (Ht : truthy (Str (toUpperCase (capture 1 m))) = true).
  { apply key_text_truthy. eapply url_key_captured; eassumption. }
  rewrite (strategy_url_found page _ m E).
  rewrite strategy_param_found by exact Ht.
  now apply found_key_kept.
Qed.

(** X6: without a key in the URL, a selectedIssue parameter that passes
    /^[A-Z][A-Z0-9]+-\d+$/i wins over the elements and the title: the
    returned key is its upper case. *)
Theorem selected_issue_wins page s :
  exec url_key_re (href page) = None ->
  get "selectedIssue" (URLSearchParams (search page)) = Str s ->
  test selected_re s = true ->
  key (extractIssueData URLSearchParams page) = Str (toUpperCase s)
  /\ url (extractIssueData URLSearchParams page)
     = origin page ++ "/browse/" ++ toUpperCase s.
Proof.
  intros E Hg Hs. unfold extractIssueData.
  assert (Hk : key_text s) by now apply selected_is_key.
  assert (Ht : truthy (Str (toUpperCase s)) = true) by now apply key_text_truthy.
  rewrite (strategy_url_missing page _ E).
  rewrite (strategy_param_selected page
             {| key := Null; summary := Null; url := href page |}
             s eq_refl Hg Hs).
  now apply found_key_kept.
Qed.

Lemma summary_loop_trimmed page selectors d :
  trimmed (summary d) -> trimmed (summary (summary_loop page selectors d)).
Proof.
  intros H. induction selectors as [|sel rest IH]; cbn [summary_loop];
    [assumption|].
  destruct (querySelector page sel) as [text|]; [|assumption].
  destruct (truthy _); [|assumption].
  simpl. apply trim_idempotent.
Qed.

Lemma key_loop_summary page selectors d :
  summary (key_loop page selectors d) = summary d.
Proof.
  induction selectors as [|sel rest IH]; cbn [key_loop]; [reflexivity|].
  destruct (querySelector page sel); [|assumption].
  destruct (exec text_key_re _); [reflexivity | assumption].
Qed.

(** X7: the returned summary is null or a text that trim() leaves as it is:
    it never carries white space at either end, whether it came from an
    element or from the page title. *)
Theorem summary_is_trimmed page :
  trimmed (summary (extractIssueData URLSearchParams page)).
Proof.
  unfold extractIssueData.
  set (d4 := strategy_selectors page _).
  assert (H4 : summary d4 = Null).
  { unfold d4, strategy_selectors, strategy_breadcrumb, strategy_param,
      strategy_url.
    repeat (match goal with
            | |- context [if ?c then _ else _] => destruct c
            | |- context [match ?c with _ => _ end] => destruct c
            end; try rewrite key_loop_summary; try reflexivity). }
  set (d5 := summary_loop page summarySelectors d4).
  assert (H5 : trimmed (summary d5)).
  { unfold d5. apply summary_loop_trimmed. now rewrite H4. }
  unfold canonical_url, strategy_title.
  repeat (match goal with
          | |- context [if ?c then _ else _] => destruct c
          | |- context [match exec ?p ?s with _ => _ end] => destruct (exec p s)
          end; simpl; try exact H5; try apply trim_idempotent).
Qed.

End StrategyOrder.

(** * What the popup receives from the content script *)
Section ResponseFacts.
Import JS RegExp Content Shape Notions.

Variable URLSearchParams : string -> list (string * string).

Lemma extracted_url_cases page :
  let d := extractIssueData URLSearchParams page in
  if truthy (key d) then url d = origin page ++ "/browse/" ++ to_string (key d)
  else url d = href page.
Proof.
  unfold extractIssueData.
  set (d6 := strategy_title page _).
  assert (Hu : url d6 = href page).
  { unfold d6.
    now rewrite strategy_title_url, summary_loop_url, strategy_selectors_url,
      strategy_breadcrumb_url, strategy_param_url, strategy_url_url. }
  unfold canonical_url. simpl.
  destruct (truthy (key d6)) eqn:Ht; simpl; now rewrite Ht.
Qed.

(** X8: to a getIssueData request the content script answers with the
    extracted data and its formats; the formats are null exactly when the
    key is null or empty (then the url is the page's URL), and otherwise
    every link in them points to <origin>/browse/<key>, not to the page. *)
Theorem response_is_consistent page :
  exists r,
    Messaging.onMessage URLSearchParams (Str "getIssueData") page = Some r
    /\ Messaging.issueData r = extractIssueData URLSearchParams page
    /\ match Messaging.formats r with
       | None =>
           truthy (key (Messaging.issueData r)) = false
           /\ url (Messaging.issueData r) = href page
       | Some f =>
           exists k,
             let target := origin page ++ "/browse/" ++ k in
             key (Messaging.issueData r) = Str k
             /\ truthy (Str k) = true
             /\ url (Messaging.issueData r) = target
             /\ markdownShort f = "[" ++ k ++ "](" ++ target ++ ")"
             /\ markdown f = "[" ++ plainText f ++ "](" ++ target ++ ")"
             /\ html f = "<a href=" ++ dquote ++ target ++ dquote ++ ">"
                         ++ escapeHtml (plainText f) ++ "</a>"
       end.
Proof.
  eexists. split; [reflexivity|]. split; [reflexivity|]. cbn [Messaging.formats
    Messaging.issueData].
  pose proof (extracted_url_cases page) as Hu. cbv zeta in Hu.
  set (d := extractIssueData URLSearchParams page) in *.
  unfold generateFormats.
  destruct (truthy (key d)) eqn:Ht; cbn [negb].
  - destruct (key d) as [| |k] eqn:Hk; try discriminate.
    exists k. cbv zeta. cbn [to_string] in Hu. rewrite Hu.
    cbn [plainText markdown markdownShort html to_string].
    repeat split. exact Ht.
  - now split.
Qed.

Lemma matches_relocate ci r pos m rest cs cs' :
  matches ci r pos m rest cs cs' -> anchorless r = true ->
  forall pos' rest', matches ci r pos' m rest' cs cs'.
Proof.
  induction 1; simpl; intros A pos' rest'; try discriminate;
    try (constructor; assumption).
  - apply andb_true_iff in A as [A1 A2].
    apply M_Seq with (cs1 := cs1); auto.
  - apply M_Opt_some; auto.
  - apply M_Group; auto.
Qed.

(** A path in which the background script finds /browse/<KEY> makes the
    content script find it in any URL that contains the path. *)
Lemma browse_in_href path pre post :
  test Background.browse_re path = true ->
  exec url_key_re (pre ++ path ++ post) <> None.
Proof.
  unfold test. destruct (exec Background.browse_re path) as [res|] eqn:E;
    [intros _ | discriminate].
  apply exec_sound in E as (p1 & m & r1 & -> & H). simpl in H.
  apply matches_seq_inv in H as (m1 & k & cs1 & -> & H1 & H2).
  replace (pre ++ (p1 ++ (m1 ++ k) ++ r1) ++ post)
    with ((pre ++ p1) ++ (m1 ++ k) ++ (r1 ++ post))
    by (now rewrite !append_assoc).
  unfold exec. eapply search_complete. simpl.
  apply M_Seq with (cs1 := cs1).
  - apply (matches_relocate _ _ _ _ _ _ _ H1). reflexivity.
  - apply M_Group.
    apply (matches_relocate _ _ _ _ _ _ _ H2). reflexivity.
Qed.

(** X9: the two scripts agree on direct issue pages: when the background
    script finds /browse/<KEY> in the path and the page URL contains that
    path, the content script returns a well-formed upper-case key and
    generateFormats produces formats. *)
Theorem browse_path_gives_formats page path pre post :
  href page = pre ++ path ++ post ->
  test Background.browse_re path = true ->
  exists k f,
    key (extractIssueData URLSearchParams page) = Str k
    /\ test key_pattern k = true /\ toUpperCase k = k
    /\ generateFormats (extractIssueData URLSearchParams page) = Some f
    /\ markdownShort f
       = "[" ++ k ++ "](" ++ (origin page ++ "/browse/" ++ k) ++ ")".
Proof.
  intros Hh Hb.
  pose proof (browse_in_href path pre post Hb) as E. rewrite <- Hh in E.
  destruct (exec url_key_re (href page)) as [m|] eqn:Em; [|congruence].
  assert (Kt : key_text (capture 1 m)) by (eapply url_key_captured; eassumption).
  assert (Hku : key (extractIssueData URLSearchParams page)
                = Str (toUpperCase (capture 1 m))
                /\ url (extractIssueData URLSearchParams page)
                   = origin page ++ "/browse/" ++ toUpperCase (capture 1 m)).
  { unfold extractIssueData. rewrite (strategy_url_found page _ m Em).
    rewrite (strategy_param_found URLSearchParams)
      by exact (key_text_truthy _ Kt).
    apply found_key_kept; [reflexivity | exact (key_text_truthy _ Kt)]. }
  destruct Hku as [Hk Hu].
  destruct (upper_key_text_pattern _ (upper_key _ Kt)) as [Hp Hfix].
  exists (toUpperCase (capture 1 m)).
  unfold generateFormats. rewrite Hk, Hu.
  rewrite (key_text_truthy _ Kt). simpl.
  eexists. repeat split; assumption.
Qed.

End ResponseFacts.

(** * escapeHtml *)
Section Escaping.
Import JS Content Shape Notions.

Lemma escapeHtml_append a b :
  escapeHtml (a ++ b) = escapeHtml a ++ escapeHtml b.
Proof.
  induction a as [|c a IH]; simpl; [reflexivity|].
  now rewrite IH, append_assoc.
Qed.

Lemma escape_plain_char c :
  is_plain c = true -> escape_char c = String c EmptyString.
Proof.
  unfold is_plain, is_special, escape_char. intros H.
  apply negb_true_iff in H.
  destruct (Ascii.eqb c "&"); [discriminate|].
  destruct (code c =? 160); [discriminate|].
  destruct (Ascii.eqb c "<"); [discriminate|].
  destruct (Ascii.eqb c ">"); [discriminate|].
  reflexivity.
Qed.

Lemma escape_special_char c :
  is_special c = true ->
  exists rest, escape_char c = String "&" rest /\ 3 <= String.length rest.
Proof.
  unfold is_special, escape_char. intros H.
  destruct (Ascii.eqb c "&"); [eexists; split; [reflexivity | simpl; lia]|].
  destruct (code c =? 160); [eexists; split; [reflexivity | simpl; lia]|].
  destruct (Ascii.eqb c "<"); [eexists; split; [reflexivity | simpl; lia]|].
  destruct (Ascii.eqb c ">"); [eexists; split; [reflexivity | simpl; lia]|].
  discriminate.
Qed.

Lemma plain_not_ampersand c : is_plain c = true -> c <> "&"%char.
Proof. intros H ->. discriminate H. Qed.

Lemma escapeHtml_grows s : String.length s <= String.length (escapeHtml s).
Proof.
  induction s as [|c s IH]; simpl; [lia|].
  rewrite length_append.
  destruct (is_special c) eqn:Hc.
  - destruct (escape_special_char c Hc) as (rest & -> & Hl). simpl. lia.
  - rewrite escape_plain_char by (unfold is_plain; now rewrite Hc).
    simpl. lia.
Qed.

Lemma nbsp_unique c : (code c =? 160) = true -> c = ascii_of_nat 160.
Proof.
  intros H. apply Nat.eqb_eq in H. unfold code in H.
  now rewrite <- (ascii_nat_embedding c), H.
Qed.

Lemma escape_char_cases c :
  (c = "&"%char /\ escape_char c = "&amp;")
  \/ (c = ascii_of_nat 160 /\ escape_char c = "&nbsp;")
  \/ (c = "<"%char /\ escape_char c = "&lt;")
  \/ (c = ">"%char /\ escape_char c = "&gt;")
  \/ (c <> "&"%char /\ escape_char c = String c EmptyString).
Proof.
  unfold escape_char.
  destruct (Ascii.eqb c "&") eqn:A.
  { apply Ascii.eqb_eq in A. subst. now left. }
  destruct (code c =? 160) eqn:N.
  { apply nbsp_unique in N. subst. right. now left. }
  destruct (Ascii.eqb c "<") eqn:L.
  { apply Ascii.eqb_eq in L. subst. right. right. now left. }
  destruct (Ascii.eqb c ">") eqn:G.
  { apply Ascii.eqb_eq in G. subst. right. right. right. now left. }
  right. right. right. right. split; [|reflexivity].
  intros ->. discriminate A.
Qed.

(** The replacements form a prefix code: no escaped character starts
    another one. *)
Lemma escape_char_prefix_free c1 c2 x y :
  escape_char c1 ++ x = escape_char c2 ++ y -> c1 = c2 /\ x = y.
Proof.
  destruct (escape_char_cases c1)
    as [[-> ->]|[[-> ->]|[[-> ->]|[[-> ->]|[N1 ->]]]]];
  destruct (escape_char_cases c2)
    as [[-> ->]|[[-> ->]|[[-> ->]|[[-> ->]|[N2 ->]]]]];
  simpl; intros H; try discriminate H;
  try (injection H as H; split; [reflexivity | exact H]).
  - injection H as Hc _. now subst.
  - injection H as Hc _. now subst.
  - injection H as Hc _. now subst.
  - injection H as Hc _. now subst.
  - injection H as Hc _. now subst.
  - injection H as Hc _. now subst.
  - injection H as Hc _. now subst.
  - injection H as Hc _. now subst.
  - injection H as Hc Hx. now subst.
Qed.

(** X10: escapeHtml loses nothing: two texts with the same escaped form
    are the same text. *)
Theorem escapeHtml_injective a : forall b,
  escapeHtml a = escapeHtml b -> a = b.
Proof.
  induction a as [|c a IH]; intros [|d b] H; simpl in H.
  - reflexivity.
  - exfalso. pose proof (f_equal String.length H) as L.
    rewrite length_append in L. simpl in L.
    destruct (is_special d) eqn:Hd.
    + destruct (escape_special_char d Hd) as (rest & E & _).
      rewrite E in L. simpl in L. lia.
    + rewrite escape_plain_char in L by (unfold is_plain; now rewrite Hd).
      simpl in L. lia.
  - exfalso. pose proof (f_equal String.length H) as L.
    rewrite length_append in L. simpl in L.
    destruct (is_special c) eqn:Hc.
    + destruct (escape_special_char c Hc) as (rest & E & _).
      rewrite E in L. simpl in L. lia.
    + rewrite escape_plain_char in L by (unfold is_plain; now rewrite Hc).
      simpl in L. lia.
  - apply escape_char_prefix_free in H as [-> H].
    now rewrite (IH b H).
Qed.

(** X11: escapeHtml returns a text unchanged exactly when the text has no
    ampersand, no-break space or angle bracket. *)
Theorem escapeHtml_fixes_plain_text s :
  escapeHtml s = s <-> all_chars is_plain s = true.
Proof.
  split.
  - induction s as [|c s IH]; simpl; [reflexivity|]. intros H.
    destruct (is_special c) eqn:Hc.
    + exfalso. destruct (escape_special_char c Hc) as (rest & E & Hl).
      rewrite E in H. simpl in H. injection H as _ H.
      pose proof (f_equal String.length H) as L.
      rewrite length_append in L.
      pose proof (escapeHtml_grows s). lia.
    + assert (Hp : is_plain c = true) by (unfold is_plain; now rewrite Hc).
      rewrite Hp. rewrite (escape_plain_char c Hp) in H. simpl in *.
      injection H as H. auto.
  - induction s as [|c s IH]; simpl; [reflexivity|]. intros H.
    apply andb_true_iff in H as [Hc Hs].
    rewrite (escape_plain_char c Hc), (IH Hs). reflexivity.
Qed.

End Escaping.

(** * URL change notifications *)
Section Notifications.
Import JS Completion Background Messaging.

Lemma notifyUrlChange_same href st :
  String.eqb href (currentUrl st) = true -> notifyUrlChange href st = st.
Proof. intros E. unfold notifyUrlChange. now rewrite E. Qed.

Lemma notifyUrlChange_new href st :
  String.eqb href (currentUrl st) = false ->
  notifyUrlChange href st
  = {| currentUrl := href;
       sent := (sent st ++ [{| action := "urlChanged"; url := href |}])%list |}.
Proof. intros E. unfold notifyUrlChange. now rewrite E. Qed.

Lemma observe_sends hrefs : forall st,
  exists new,
    sent (observe hrefs st) = (sent st ++ new)%list
    /\ Forall (fun m => action m = "urlChanged") new
    /\ changes (currentUrl st) (map url new) = true
    /\ currentUrl (observe hrefs st) = last_url (currentUrl st) hrefs
    /\ last_url (currentUrl st) (map url new) = last_url (currentUrl st) hrefs.
Proof.
  induction hrefs as [|h rest IH]; intros st; simpl.
  - exists []. rewrite app_nil_r. repeat split. constructor.
  - destruct (String.eqb h (currentUrl st)) eqn:E.
    + rewrite (notifyUrlChange_same h st E).
      apply String.eqb_eq in E. subst h. apply IH.
    + rewrite (notifyUrlChange_new h st E).
      destruct (IH {| currentUrl := h;
                      sent := (sent st ++ [{| action := "urlChanged"; url := h |}])%list |})
        as (new & Hs & Ha & Hc & Hu & Hl). simpl in *.
      exists ({| action := "urlChanged"; url := h |} :: new).
      rewrite Hs, <- app_assoc. simpl. rewrite E. simpl.
      repeat split; auto.
Qed.

(** X12: notifyUrlChange reports every change once: over any sequence of
    calls, each message sent is a urlChanged message whose url differs from
    the one before it (the first from the initial currentUrl), and
    currentUrl and the last url sent end as the last location seen. *)
Theorem changes_reported_once cur hrefs :
  let st := observe hrefs {| currentUrl := cur; sent := [] |} in
  Forall (fun m => action m = "urlChanged") (sent st)
  /\ changes cur (map url (sent st)) = true
  /\ currentUrl st = last_url cur hrefs
  /\ last_url cur (map url (sent st)) = last_url cur hrefs.
Proof.
  intros st.
  destruct (observe_sends hrefs {| currentUrl := cur; sent := [] |})
    as (new & Hs & Ha & Hc & Hu & Hl).
  simpl in Hs, Hc, Hu, Hl. fold st in Hs, Hu.
  rewrite Hs. repeat split; assumption.
Qed.

End Notifications.

(** * From the content script's notifications to the page action *)
Section NotificationsDelivered.
Import JS Completion Background Messaging.

Variable URL_parse : string -> option URL.

Lemma delivered_reports tab new :
  Forall (fun m => action m = "urlChanged") new ->
  flat_map PageAction.reports (map (delivered tab) new)
  = map (fun m => (PageAction.id tab, Str (url m))) new.
Proof.
  induction 1 as [|m new Hm _ IH]; simpl; [reflexivity|].
  rewrite Hm, IH. reflexivity.
Qed.

Lemma last_report_delivered T t cur new :
  PageAction.last_report t (map (fun m => (T, Str (url m))) new)
  = if (T =? t) && negb (Nat.eqb (List.length new) 0)
    then Some (Str (last_url cur (map url new)))
    else None.
Proof.
  revert cur. induction new as [|m new IH]; intros cur; simpl.
  - now rewrite andb_false_r.
  - rewrite (IH (url m)). rewrite andb_true_r.
    destruct (T =? t); simpl; [|reflexivity].
    destruct new; reflexivity.
Qed.

(** X13: when the messages the content script sent from a tab are handled
    by the background script, the page action of that tab ends as the
    classifier answers for the last location the content script saw; other
    tabs are left alone, and so is this one if nothing was sent. *)
Theorem background_learns_final_url tab cur hrefs bg :
  let st := observe hrefs {| currentUrl := cur; sent := [] |} in
  exists bg',
    PageAction.run URL_parse (map (delivered tab) (sent st)) bg = Normal bg'
    /\ (forall t, t <> PageAction.id tab -> bg' t = bg t)
    /\ (sent st = [] -> bg' (PageAction.id tab) = bg (PageAction.id tab))
    /\ (sent st <> [] ->
        bg' (PageAction.id tab)
        = PageAction.identifiable URL_parse (Str (last_url cur hrefs))).
Proof.
  intros st.
  destruct (observe_sends hrefs {| currentUrl := cur; sent := [] |})
    as (new & Hs & Ha & _ & _ & Hl).
  simpl in Hs, Hl. fold st in Hs. rewrite Hs.
  destruct (run_follows URL_parse (map (delivered tab) new) bg) as [bg' [E F]].
  exists bg'. split; [assumption|].
  rewrite (delivered_reports tab new Ha) in F. unfold PageAction.follows in F.
  repeat split.
  - intros t Ht. rewrite F, (last_report_delivered _ _ cur).
    destruct (PageAction.id tab =? t) eqn:Et; [|reflexivity].
    apply Nat.eqb_eq in Et. congruence.
  - intros ->. now rewrite F.
  - intros Hn. rewrite F, (last_report_delivered _ _ cur), Nat.eqb_refl.
    destruct new; [congruence|]. simpl negb. simpl andb. cbv iota.
    now rewrite Hl.
Qed.

End NotificationsDelivered.

(** * includes, endsWith and the popup's URL test *)
Section JiraUrl.
Import JS Completion Background PopupUI.

Lemma includes_unfold s p :
  includes s p
  = prefix p s || match s with
                  | EmptyString => false
                  | String _ s' => includes s' p
                  end.
Proof. destruct s; reflexivity. Qed.

Lemma includes_append a p b : includes (a ++ p ++ b) p = true.
Proof.
  induction a as [|c a IH].
  - rewrite includes_unfold. simpl. now rewrite prefix_append.
  - rewrite includes_unfold. simpl. rewrite IH. apply orb_true_r.
Qed.

Lemma substring_all s : substring 0 (String.length s) s = s.
Proof. induction s; simpl; congruence. Qed.

Lemma substring_split s : forall n,
  n <= String.length s ->
  s = substring 0 n s ++ substring n (String.length s - n) s.
Proof.
  induction s as [|c s IH]; intros [|n] H; simpl in *.
  - reflexivity.
  - lia.
  - now rewrite substring_all.
  - f_equal. apply IH. lia.
Qed.

Lemma endsWith_split s p :
  endsWith s p = true -> exists a, s = a ++ p.
Proof.
  unfold endsWith. intros H. apply andb_true_iff in H as [Hl He].
  apply Nat.leb_le in Hl. apply String.eqb_eq in He.
  exists (substring 0 (String.length s - String.length p) s).
  rewrite (substring_split s (String.length s - String.length p)) at 1 by lia.
  replace (String.length s - (String.length s - String.length p))
    with (String.length p) by lia.
  now rewrite He.
Qed.

Lemma startsWith_slash p :
  startsWith p "/" = true -> exists q, p = "/" ++ q.
Proof.
  unfold startsWith. intros H. apply prefix_correct in H.
  destruct p as [|c q]; simpl in H; [discriminate|].
  injection H as ->. now exists q.
Qed.

(** X14: the popup does not turn away a page for which the page action is
    shown: when hasIdentifiableIssue accepts a URL that reads
    ...<hostname><pathname>... with a path that begins with a slash,
    isJiraUrl accepts it too. *)
Theorem shown_page_is_jira_url URL_parse url u pre post :
  hasIdentifiableIssue URL_parse url = Normal true ->
  URL_parse (to_string url) = Some u ->
  to_string url = pre ++ hostname u ++ pathname u ++ post ->
  startsWith (pathname u) "/" = true ->
  isJiraUrl url = true.
Proof.
  intros Hs Hp Hu Hslash.
  destruct (accepted_parsed URL_parse url Hs) as [Ht _].
  rewrite (classify_parsed URL_parse url u Ht Hp) in Hs.
  destruct (endsWith (hostname u) ".atlassian.net") eqn:Hh;
    [|discriminate Hs].
  destruct (endsWith_split _ _ Hh) as [a Ha].
  destruct (startsWith_slash _ Hslash) as [q Hq].
  unfold isJiraUrl. rewrite Ht. simpl negb. cbv iota.
  rewrite Hu, Ha, Hq.
  replace (pre ++ (a ++ ".atlassian.net") ++ ("/" ++ q) ++ post)
    with ((pre ++ a) ++ ".atlassian.net/" ++ (q ++ post)).
  - now rewrite includes_append.
  - rewrite !append_assoc. reflexivity.
Qed.

End JiraUrl.

(** * The popup: init and the copy buttons *)
Section PopupFlow.
Import JS Completion Content Popup PopupUI Session.

Variable World : Type.
Variable ClipboardItem : Type.
Variable tabs_query : M World (list PageAction.Tab).
Variable tabs_sendMessage : nat -> string -> M World (option Messaging.Response).
Variable tabs_executeScript : nat -> string -> M World unit.
Variable console_log : string -> World -> World.
Variable console_error : string -> World -> World.
Variable console_warn : string -> error -> World -> World.
Variable new_ClipboardItem : list (string * Blob) -> M World ClipboardItem.
Variable clipboard_write : list ClipboardItem -> M World unit.
Variable clipboard_writeText : string -> M World unit.
Variable showCopiedFeedback : Button -> M World unit.
Variable showErrorFeedback : string -> M World unit.
Variable inherited : string -> option string.

Lemma failed_settled st : issueFormats st = None -> settled st (failed st).
Proof. intros H. unfold settled, failed. simpl. now rewrite H. Qed.

Lemma respond_settled response st :
  issueFormats st = None -> settled st (respond response st).
Proof.
  intros H. unfold respond.
  destruct response as [r|]; [|now apply failed_settled].
  destruct (Messaging.formats r) as [f|]; [|now apply failed_settled].
  destruct (truthy (key (Messaging.issueData r))) eqn:Ht;
    [|now apply failed_settled].
  unfold settled. simpl. now exists (Messaging.issueData r).
Qed.

Lemma request_issue_settled tabId st w :
  issueFormats st = None ->
  match request_issue World tabs_sendMessage tabId st w with
  | (Normal st', _) => settled st st'
  | (Throw _, _) => True
  end.
Proof.
  intros H. unfold request_issue, bindM, ret.
  destruct (tabs_sendMessage tabId "getIssueData" w) as [[response|e] w'];
    [now apply respond_settled | exact I].
Qed.

Lemma retry_settled tabId st w :
  issueFormats st = None ->
  exists st' w',
    retry World tabs_sendMessage console_error tabId st w = (Normal st', w')
    /\ settled st st'.
Proof.
  intros H. unfold retry, try_catchM.
  pose proof (request_issue_settled tabId st w H) as R.
  destruct (request_issue World tabs_sendMessage tabId st w) as [[st'|e] w'].
  - now exists st', w'.
  - unfold log, ret. eexists. eexists. split; [reflexivity|].
    now apply failed_settled.
Qed.

Lemma injectContentScript_returns tabId w :
  exists w',
    injectContentScript World tabs_executeScript console_error tabId w
    = (Normal tt, w').
Proof.
  unfold injectContentScript, try_catchM, log, ret.
  destruct (tabs_executeScript tabId "content.js" w) as [[[]|e] w'];
    eexists; reflexivity.
Qed.

Lemma injection_schedules tabId (st : State) w :
  exists w',
    bindM World
      (injectContentScript World tabs_executeScript console_error tabId)
      (fun _ => ret World (st, Some tabId)) w
    = (Normal (st, Some tabId), w').
Proof.
  unfold bindM.
  destruct (injectContentScript_returns tabId w) as [w' ->].
  now exists w'.
Qed.

(** init either settles the popup and schedules nothing, or leaves the
    state as it found it and schedules the retry. *)
Lemma init_settles st w :
  issueFormats st = None ->
  exists st' pending w',
    init World tabs_query tabs_sendMessage tabs_executeScript console_log
      console_error st w = (Normal (st', pending), w')
    /\ match pending with
       | None => settled st st'
       | Some _ => st' = st
       end.
Proof.
  intros H. unfold init. unfold try_catchM at 1. unfold bindM at 1.
  destruct (tabs_query w) as [[tabs|e] w1].
  - destruct tabs as [|tab rest].
    + unfold ret. exists (failed st), None, w1. split; [reflexivity|].
      now apply failed_settled.
    + destruct (negb (isJiraUrl (PageAction.url tab))).
      * unfold ret. exists (failed st), None, w1. split; [reflexivity|].
        now apply failed_settled.
      * unfold try_catchM at 1. unfold bindM at 1.
        pose proof (request_issue_settled (PageAction.id tab) st w1 H) as R.
        destruct (request_issue World tabs_sendMessage (PageAction.id tab) st w1)
          as [[st'|e] w2].
        -- unfold ret. now exists st', None, w2.
        -- unfold log.
           destruct (injection_schedules (PageAction.id tab) st
                       (console_log
                          "Content script not responding, attempting injection..."
                          w2)) as [w3 ->].
           now exists st, (Some (PageAction.id tab)), w3.
  - unfold log, ret. exists (failed st), None, (console_error "Init error:" w1).
    split; [reflexivity|]. now apply failed_settled.
Qed.

Lemma enableButtons_all u :
  Forall (fun b => disabled b = false /\ listening b = true)
    (copy_buttons (enableButtons u))
  /\ map format (copy_buttons (enableButtons u)) = map format (copy_buttons u).
Proof.
  unfold enableButtons. simpl. split.
  - induction (copy_buttons u); simpl; constructor; auto.
  - rewrite map_map. reflexivity.
Qed.

Lemma settled_consistent st st' : settled st st' -> consistent st st'.
Proof.
  unfold settled, consistent. destruct (issueFormats st').
  - intros (d & Ht & ->).
    destruct (enableButtons_all (showIssueInfo d (ui st))) as [Hb Hf].
    repeat split; try assumption.
    simpl. destruct (key d) as [| |[|c k]]; simpl in *; congruence.
  - intros ->. repeat split.
Qed.

(** X15: whatever the browser answers, init throws nothing, and the popup
    settles either when init returns or when the retry init scheduled with
    setTimeout has run.  Settled means one of two states: no formats
    stored, the error shown, the issue and the buttons hidden and the
    buttons untouched; or formats stored, the issue shown with a non-empty
    key, the error hidden and every copy button enabled with its click
    listener.  If init schedules the retry it leaves the popup as it found
    it, and the retry, whenever it fires, throws nothing and settles it. *)
Theorem init_ends_consistent st w :
  issueFormats st = None ->
  exists st' pending w',
    init World tabs_query tabs_sendMessage tabs_executeScript console_log
      console_error st w = (Normal (st', pending), w')
    /\ match pending with
       | None => consistent st st'
       | Some tabId =>
           st' = st
           /\ forall w2, exists st'' w3,
                retry World tabs_sendMessage console_error tabId st' w2
                = (Normal st'', w3)
                /\ consistent st st''
       end.
Proof.
  intros H. destruct (init_settles st w H) as (st' & pending & w' & E & S).
  exists st', pending, w'. split; [assumption|].
  destruct pending as [tabId|].
  - subst st'. split; [reflexivity|]. intros w2.
    destruct (retry_settled tabId st w2 H) as (st'' & w3 & Er & Sr).
    exists st'', w3. split; [assumption | now apply settled_consistent].
  - now apply settled_consistent.
Qed.

(** X16: a copy that fails is reported as failed: when the format is
    available and the write (the text write, or for html the rich write
    with its fallback) throws, handleCopyClick logs the error and ends in
    showErrorFeedback; showCopiedFeedback is not reached. *)
Theorem failed_copy_is_reported formats button w e w1 :
  found (lookup inherited formats (format button)) = true ->
  write_step World ClipboardItem console_warn new_ClipboardItem clipboard_write
    clipboard_writeText formats (format button)
    (text_of (lookup inherited formats (format button))) w = (Throw e, w1) ->
  handleCopyClick World ClipboardItem console_error console_warn
    new_ClipboardItem clipboard_write clipboard_writeText showCopiedFeedback
    showErrorFeedback inherited (Some formats) button w
  = showErrorFeedback "Failed to copy to clipboard"
      (console_error "Copy failed:" w1).
Proof.
  intros Ht Hw. unfold handleCopyClick. rewrite Ht. simpl.
  unfold try_catchM, bindM. now rewrite Hw.
Qed.

(** X17: for the html format, when the rich write throws and the text
    write of the markup succeeds, handleCopyClick goes on to
    showCopiedFeedback: the click is reported as copied although the
    clipboard holds the markup as plain text. *)
Theorem html_fallback_counts_as_copied formats button w e w1 w2 :
  format button = "html" ->
  truthy (Str (html formats)) = true ->
  rich_write World ClipboardItem new_ClipboardItem clipboard_write
    (html formats) (plainText formats) w = (Throw e, w1) ->
  clipboard_writeText (html formats)
    (console_warn "ClipboardItem not supported, falling back to text copy:"
       e w1) = (Normal tt, w2) ->
  handleCopyClick World ClipboardItem console_error console_warn
    new_ClipboardItem clipboard_write clipboard_writeText showCopiedFeedback
    showErrorFeedback inherited (Some formats) button w
  = match showCopiedFeedback button w2 with
    | (Normal a, w3) => (Normal a, w3)
    | (Throw e', w3) =>
        showErrorFeedback "Failed to copy to clipboard"
          (console_error "Copy failed:" w3)
    end.
Proof.
  intros Hf Ht Hr Hw. unfold handleCopyClick. rewrite Hf.
  change (lookup inherited formats "html") with (Own (html formats)).
  cbn [found text_of]. rewrite Ht. cbn [negb].
  change (write_step World ClipboardItem console_warn new_ClipboardItem
            clipboard_write clipboard_writeText formats "html" (html formats))
    with (copyHtmlToClipboard World ClipboardItem new_ClipboardItem
            clipboard_write clipboard_writeText console_warn (html formats)
            (plainText formats)).
  unfold try_catchM at 1. unfold bindM.
  unfold copyHtmlToClipboard, try_catchM. rewrite Hr.
  unfold text_fallback. rewrite Hw. reflexivity.
Qed.

End PopupFlow.

(** * The popup and the content script together *)
Section PopupAndContent.
Import JS Completion Content Popup PopupUI Session.

Variable World : Type.
Variable URLSearchParams : string -> list (string * string).
Variable tabs_query : M World (list PageAction.Tab).
Variable tabs_sendMessage : nat -> string -> M World (option Messaging.Response).
Variable tabs_executeScript : nat -> string -> M World unit.
Variable console_log : string -> World -> World.
Variable console_error : string -> World -> World.

Lemma onMessage_getIssueData page :
  Messaging.onMessage URLSearchParams (Str "getIssueData") page
  = Some {| Messaging.issueData := extractIssueData URLSearchParams page;
            Messaging.formats :=
              generateFormats (extractIssueData URLSearchParams page) |}.
Proof. reflexivity. Qed.

Lemma respond_extracted page st :
  let d := extractIssueData URLSearchParams page in
  respond (Messaging.onMessage URLSearchParams (Str "getIssueData") page) st
  = if truthy (key d)
    then {| issueFormats := generateFormats d;
            ui := enableButtons (showIssueInfo d (ui st)) |}
    else failed st.
Proof.
  intros d. rewrite onMessage_getIssueData. fold d.
  unfold respond. cbn [Messaging.formats Messaging.issueData].
  unfold generateFormats. destruct (truthy (key d)); reflexivity.
Qed.

(** X18: when the active tab passes isJiraUrl and its content script
    answers the first request, init stores exactly the formats generated
    from the extracted data and shows its key and summary if the key is
    non-empty, and shows the error otherwise; no injection is tried and no
    retry is scheduled. *)
Theorem popup_shows_extracted_issue page tab rest st w w1 w2 :
  tabs_query w = (Normal (tab :: rest), w1) ->
  isJiraUrl (PageAction.url tab) = true ->
  tabs_sendMessage (PageAction.id tab) "getIssueData" w1
  = (Normal (Messaging.onMessage URLSearchParams (Str "getIssueData") page), w2) ->
  init World tabs_query tabs_sendMessage tabs_executeScript console_log
    console_error st w
  = (Normal
       (if truthy (key (extractIssueData URLSearchParams page))
        then {| issueFormats :=
                  generateFormats (extractIssueData URLSearchParams page);
                ui := enableButtons
                        (showIssueInfo (extractIssueData URLSearchParams page)
                           (ui st)) |}
        else failed st,
        None),
     w2).
Proof.
  intros Hq Hj Hm. unfold init, try_catchM, bindM. rewrite Hq, Hj.
  cbn [negb]. unfold request_issue, bindM, ret. rewrite Hm.
  now rewrite respond_extracted.
Qed.

End PopupAndContent.

(** * Runs on concrete pages, tabs and clipboards *)
Section Runs.
Import JS RegExp Completion Background Content Shape Notions Popup PopupUI.

Lemma other_parameters_ignored_witness :
  hasIdentifiableIssue Browser.URL_parse
    (Str "https://x.atlassian.net/jira/dashboards/5?selectedIssue=AB-1")
  = hasIdentifiableIssue Browser.URL_parse
      (Str "https://x.atlassian.net/jira/dashboards/5?view=list&selectedIssue=no+key&x=1").
Proof.
  apply (other_parameters_ignored Browser.URL_parse _ _
           {| hostname := "x.atlassian.net"; pathname := "/jira/dashboards/5";
              searchParams := [("selectedIssue", "AB-1")] |}
           {| hostname := "x.atlassian.net"; pathname := "/jira/dashboards/5";
              searchParams := [("view", "list"); ("selectedIssue", "no key");
                               ("x", "1")] |});
    reflexivity.
Defined.

Lemma validated_key_witness :
  match
    key (extractIssueData Browser.URLSearchParams
           (Browser.page_at "https://x.atlassian.net/jira/your-work" "Your work"
              [("#key-val", "see abc-77 now")]))
  with
  | Null => True
  | Undefined => False
  | Str k => test key_pattern k = true /\ toUpperCase k = k
  end.
Proof.
  apply (validated_key Browser.URLSearchParams
           (Browser.page_at "https://x.atlassian.net/jira/your-work" "Your work"
              [("#key-val", "see abc-77 now")])).
  reflexivity.
Defined.

Lemma url_key_wins_witness :
  let page :=
    Browser.page_at "https://x.atlassian.net/browse/ab-1?selectedIssue=CD-2"
      "[EF-3] Other - Jira" [(breadcrumb_link, "GH-4"); ("#key-val", "IJ-5")] in
  key (extractIssueData Browser.URLSearchParams page) = Str "AB-1"
  /\ url (extractIssueData Browser.URLSearchParams page)
     = "https://x.atlassian.net/browse/AB-1".
Proof.
  intros page.
  apply (url_key_wins Browser.URLSearchParams page [(1, "ab-1")]).
  reflexivity.
Defined.

Lemma selected_issue_wins_witness :
  let page :=
    Browser.page_at
      "https://x.atlassian.net/jira/software/p/boards/1?selectedIssue=cd-2"
      "[EF-3] Other - Jira" [(breadcrumb_link, "GH-4"); ("#key-val", "IJ-5")] in
  key (extractIssueData Browser.URLSearchParams page) = Str "CD-2"
  /\ url (extractIssueData Browser.URLSearchParams page)
     = "https://x.atlassian.net/browse/CD-2".
Proof.
  intros page.
  apply (selected_issue_wins Browser.URLSearchParams page "cd-2");
    reflexivity.
Defined.

Lemma browse_path_gives_formats_witness :
  let page :=
    Browser.page_at "https://x.atlassian.net/browse/ab-1?focusedCommentId=7"
      "Jira" [] in
  exists k f,
    key (extractIssueData Browser.URLSearchParams page) = Str k
    /\ test key_pattern k = true /\ toUpperCase k = k
    /\ generateFormats (extractIssueData Browser.URLSearchParams page) = Some f
    /\ markdownShort f
       = "[" ++ k ++ "](" ++ (origin page ++ "/browse/" ++ k) ++ ")".
Proof.
  intros page.
  apply (browse_path_gives_formats Browser.URLSearchParams page
           "/browse/ab-1" "https://x.atlassian.net" "?focusedCommentId=7");
    reflexivity.
Defined.

Lemma escapeHtml_injective_witness : "a<b & c" = "a<b & c".
Proof.
  apply (escapeHtml_injective "a<b & c" "a<b & c"). reflexivity.
Defined.

Lemma shown_page_is_jira_url_witness :
  isJiraUrl (Str "https://x.atlassian.net/BROWSE/AB-1?x=1") = true.
Proof.
  apply (shown_page_is_jira_url Browser.URL_parse
           (Str "https://x.atlassian.net/BROWSE/AB-1?x=1")
           {| hostname := "x.atlassian.net"; pathname := "/BROWSE/AB-1";
              searchParams := [("x", "1")] |}
           "https://" "?x=1");
    reflexivity.
Defined.

Lemma background_learns_final_url_witness :
  exists bg',
    PageAction.run Browser.URL_parse
      (map (Messaging.delivered Session.board_tab)
         (Messaging.sent
            (Messaging.observe
               [ "https://x.atlassian.net/jira/your-work";
                 "https://x.atlassian.net/jira/your-work";
                 "https://x.atlassian.net/browse/AB-1" ]
               {| Messaging.currentUrl := "https://x.atlassian.net/jira/your-work";
                  Messaging.sent := [] |})))
      (fun _ => false)
    = Normal bg'
    /\ bg' 7 = true.
Proof.
  destruct (background_learns_final_url Browser.URL_parse Session.board_tab
              "https://x.atlassian.net/jira/your-work"
              [ "https://x.atlassian.net/jira/your-work";
                "https://x.atlassian.net/jira/your-work";
                "https://x.atlassian.net/browse/AB-1" ]
              (fun _ => false)) as (bg' & E & _ & _ & H).
  exists bg'. split; [exact E|].
  apply H. discriminate.
Defined.

(** The content script answers at once: init settles the popup itself. *)
Lemma popup_shows_extracted_issue_witness :
  init Browser.World Session.tabs_query Session.tabs_sendMessage
    Session.tabs_executeScript Session.say Session.say
    Session.fresh_popup Session.empty_world
  = (Normal
       ({| issueFormats := Some Session.sample_formats;
           ui := enableButtons
                   (showIssueInfo
                      {| key := Str "AB-12"; summary := Str "Fix the bug";
                         url := "https://x.atlassian.net/browse/AB-12" |}
                      (ui Session.fresh_popup)) |},
        None),
     Session.empty_world).
Proof.
  apply (popup_shows_extracted_issue Browser.World Browser.URLSearchParams
           Session.tabs_query Session.tabs_sendMessage
           Session.tabs_executeScript Session.say Session.say
           Session.board_page Session.board_tab [] Session.fresh_popup
           Session.empty_world Session.empty_world Session.empty_world);
    reflexivity.
Defined.

(** The content script does not answer: init schedules the retry and
    leaves the popup as it was; the retry shows the error. *)
Lemma init_ends_consistent_witness :
  exists st' pending w',
    init Browser.World Session.tabs_query Session.tabs_sendMessage_unanswered
      Session.tabs_executeScript Session.say Session.say
      Session.fresh_popup Session.empty_world = (Normal (st', pending), w')
    /\ match pending with
       | None => Session.consistent Session.fresh_popup st'
       | Some tabId =>
           st' = Session.fresh_popup
           /\ forall w2, exists st'' w3,
                retry Browser.World Session.tabs_sendMessage_unanswered
                  Session.say tabId st' w2 = (Normal st'', w3)
                /\ Session.consistent Session.fresh_popup st''
       end.
Proof.
  apply (init_ends_consistent Browser.World Session.tabs_query
           Session.tabs_sendMessage_unanswered Session.tabs_executeScript
           Session.say Session.say Session.fresh_popup Session.empty_world).
  reflexivity.
Defined.

(** On that path init returns with the timer pending and nothing shown
    yet. *)
Example init_schedules_retry :
  init Browser.World Session.tabs_query Session.tabs_sendMessage_unanswered
    Session.tabs_executeScript Session.say Session.say
    Session.fresh_popup Session.empty_world
  = (Normal (Session.fresh_popup, Some 7),
     Session.say "Content script not responding, attempting injection..."
       Session.empty_world).
Proof. reflexivity. Qed.

Lemma failed_copy_is_reported_witness :
  handleCopyClick Browser.World (list (string * Blob)) Session.say
    Browser.console_warn Browser.new_ClipboardItem Browser.write
    Session.writeText_denied Session.showCopiedFeedback
    Session.showErrorFeedback Session.nothing_inherited
    (Some Session.sample_formats)
    {| format := "markdown"; disabled := false; listening := true |}
    Session.empty_world
  = (Normal tt,
     {| Browser.clipboard := Browser.Nothing;
        Browser.console := ["Copy failed:"; "Failed to copy to clipboard"] |}).
Proof.
  apply (failed_copy_is_reported Browser.World (list (string * Blob))
           Session.say Browser.console_warn Browser.new_ClipboardItem
           Browser.write Session.writeText_denied Session.showCopiedFeedback
           Session.showErrorFeedback Session.nothing_inherited
           Session.sample_formats
           {| format := "markdown"; disabled := false; listening := true |}
           Session.empty_world (DOMException "NotAllowedError")
           Session.empty_world);
    reflexivity.
Defined.

Lemma html_fallback_counts_as_copied_witness :
  handleCopyClick Browser.World (list (string * Blob)) Session.say
    Browser.console_warn Browser.no_ClipboardItem Browser.write
    Browser.writeText Session.showCopiedFeedback Session.showErrorFeedback
    Session.nothing_inherited (Some Session.sample_formats)
    {| format := "html"; disabled := false; listening := true |}
    Session.empty_world
  = (Normal tt,
     {| Browser.clipboard := Browser.Text (html Session.sample_formats);
        Browser.console :=
          [ "ClipboardItem not supported, falling back to text copy:";
            "Copied to clipboard!" ] |}).
Proof.
  apply (html_fallback_counts_as_copied Browser.World (list (string * Blob))
           Session.say Browser.console_warn Browser.no_ClipboardItem
           Browser.write Browser.writeText Session.showCopiedFeedback
           Session.showErrorFeedback Session.nothing_inherited
           Session.sample_formats
           {| format := "html"; disabled := false; listening := true |}
           Session.empty_world
           (ReferenceError "ClipboardItem is not defined")
           Session.empty_world
           {| Browser.clipboard := Browser.Text (html Session.sample_formats);
              Browser.console :=
                [ "ClipboardItem not supported, falling back to text copy:" ] |});
    reflexivity.
Defined.

(** A name the formats object only inherits is copied as the text of the
    inherited value. *)
Example inherited_name_is_copied :
  handleCopyClick Browser.World (list (string * Blob)) Session.say
    Browser.console_warn Browser.new_ClipboardItem Browser.write
    Browser.writeText Session.showCopiedFeedback Session.showErrorFeedback
    (fun name => if String.eqb name "constructor"
                 then Some "function Object() { [native code] }" else None)
    (Some Session.sample_formats)
    {| format := "constructor"; disabled := false; listening := true |}
    Session.empty_world
  = (Normal tt,
     {| Browser.clipboard :=
          Browser.Text "function Object() { [native code] }";
        Browser.console := ["Copied to clipboard!"] |}).
Proof. reflexivity. Qed.

End Runs.

(** * The url of a page without the breadcrumb link *)
Section UrlWithoutBreadcrumb.
Import JS RegExp Content Shape.

Variable URLSearchParams : string -> list (string * string).

Lemma good_key_without_breadcrumb page :
  querySelector page breadcrumb_link = None ->
  good_key (key (extractIssueData URLSearchParams page)).
Proof.
  intros Hb. unfold extractIssueData.
  rewrite canonical_url_key. apply strategy_title_good.
  rewrite summary_loop_key. apply strategy_selectors_good.
  rewrite (strategy_breadcrumb_absent _ _ Hb).
  apply strategy_param_good, strategy_url_good. now left.
Qed.

(** Where the page has no breadcrumb link, a non-null key always comes with
    the url <origin>/browse/<key>, and a null key with the page's URL. *)
Lemma canonical_without_breadcrumb page :
  querySelector page breadcrumb_link = None ->
  match key (extractIssueData URLSearchParams page) with
  | Null => url (extractIssueData URLSearchParams page) = href page
  | Str k =>
      url (extractIssueData URLSearchParams page)
      = origin page ++ "/browse/" ++ k
  | Undefined => False
  end.
Proof.
  intros Hb.
  pose proof (good_key_without_breadcrumb page Hb) as G.
  pose proof (extracted_url_cases URLSearchParams page) as Hu.
  cbv zeta in Hu.
  destruct G as [E | (k & E & Hk)]; rewrite E in *.
  - exact Hu.
  - destruct Hk. exact Hu.
Qed.

End UrlWithoutBreadcrumb.

(** * The patterns of the classifier, described *)
Section PatternsDescribed.
Import JS RegExp Background Shape Described.

Ltac by_char c :=
  destruct c as [[|] [|] [|] [|] [|] [|] [|] [|]]; reflexivity.

Lemma one_mem_exact x c : cset_mem false (Class [One x]) c = Ascii.eqb x c.
Proof.
  unfold cset_mem, atom_mem. simpl. now rewrite !orb_false_r.
Qed.

Lemma browse_letter_mem x c :
  browse_letter x = true ->
  cset_mem true (Class [One x]) c = Ascii.eqb (lower_char c) x.
Proof.
  unfold browse_letter. simpl. intros H.
  repeat (apply orb_true_iff in H; destruct H as [H|H]);
    try discriminate H; apply Ascii.eqb_eq in H; subst x; by_char c.
Qed.

(** Without the i flag a literal matches itself only. *)
Lemma lit_exact s : forall pos m rest cs cs',
  matches false (lit s) pos m rest cs cs' -> m = s.
Proof.
  induction s as [|x s IH]; intros pos m rest cs cs' H; simpl in H.
  - now inversion H.
  - apply matches_seq_inv in H as (m1 & m2 & cs1 & -> & H1 & H2).
    apply matches_chars_inv in H1 as (c & -> & Hc).
    rewrite one_mem_exact in Hc. apply Ascii.eqb_eq in Hc. subst c.
    simpl. f_equal. eapply IH; eassumption.
Qed.

(** With the i flag the word /browse/ matches its spellings in any case. *)
Lemma lit_any_case s : all_chars browse_letter s = true ->
  forall pos m rest cs cs',
    matches true (lit s) pos m rest cs cs' -> toLowerCase m = s.
Proof.
  induction s as [|x s IH]; intros Hs pos m rest cs cs' H; simpl in H.
  - now inversion H.
  - simpl in Hs. apply andb_true_iff in Hs as [Hx Hs].
    apply matches_seq_inv in H as (m1 & m2 & cs1 & -> & H1 & H2).
    apply matches_chars_inv in H1 as (c & -> & Hc).
    rewrite (browse_letter_mem x c Hx) in Hc. apply Ascii.eqb_eq in Hc.
    unfold toLowerCase. simpl. rewrite Hc. f_equal.
    eapply (IH Hs); eassumption.
Qed.

Lemma any_case_lit s : all_chars browse_letter s = true ->
  forall m pos rest cs,
    toLowerCase m = s -> matches true (lit s) pos m rest cs cs.
Proof.
  induction s as [|x s IH]; intros Hs m pos rest cs E.
  - destruct m; [constructor | discriminate].
  - simpl in Hs. apply andb_true_iff in Hs as [Hx Hs].
    destruct m as [|c m]; [discriminate|].
    unfold toLowerCase in E. simpl in E. injection E as Ec Em.
    apply (M_Seq true _ _ pos (String c EmptyString) m rest cs cs cs).
    + constructor. rewrite (browse_letter_mem x c Hx).
      now apply Ascii.eqb_eq.
    + apply (IH Hs). exact Em.
Qed.

(** What the first pattern finds is /browse/<KEY>. *)
Lemma browse_re_described p : test browse_re p = true <-> browse_path p.
Proof.
  split.
  - unfold test. destruct (exec browse_re p) as [res|] eqn:E;
      [intros _ | discriminate].
    apply exec_sound in E as (pre & m & rest & -> & H). simpl source in H.
    apply matches_seq_inv in H as (b & k & cs1 & -> & H1 & H2).
    exists pre, b, k, rest. split; [now rewrite append_assoc|]. split.
    + eapply (lit_any_case "/browse/"); [reflexivity | eassumption].
    + eapply matches_issue_key_inv; eassumption.
  - intros (pre & b & k & post & -> & Hb & Hk).
    replace (pre ++ b ++ k ++ post) with (pre ++ (b ++ k) ++ post)
      by (now rewrite append_assoc).
    apply (test_complete browse_re pre _ post []).
    apply (M_Seq true _ _ _ b k post [] [] []).
    + apply (any_case_lit "/browse/"); [reflexivity | exact Hb].
    + now apply matches_issue_key.
Qed.

Lemma board_prefix_described pos m rest cs cs' :
  matches false board_prefix pos m rest cs cs' ->
  exists proj id,
    m = "/jira/software/" ++ proj ++ "/boards/" ++ id
    /\ nonempty proj = true /\ all_chars not_slash proj = true
    /\ nonempty id = true /\ all_chars is_digit id = true.
Proof.
  intros H. unfold board_prefix in H.
  apply matches_seq_inv in H as (a & m1 & cs1 & -> & Ha & H).
  apply lit_exact in Ha. subst a.
  apply matches_seq_inv in H as (proj & m2 & cs2 & -> & Hp & H).
  apply matches_plus_inv in Hp as [Hp1 Hp].
  apply matches_seq_inv in H as (b & id & cs3 & -> & Hb & Hi).
  apply lit_exact in Hb. subst b.
  apply matches_plus_inv in Hi as [Hi1 Hi].
  exists proj, id. repeat split; auto.
  - now rewrite (all_chars_ext _ _ _ not_slash_mem) in Hp.
  - now rewrite (all_chars_ext _ _ _ (digit_mem false)) in Hi.
Qed.

Lemma opt_slash_described pos m rest cs cs' :
  matches false (Opt (lit "/")) pos m rest cs cs' ->
  m = EmptyString \/ m = "/".
Proof.
  inversion 1; subst; [right | now left].
  eapply lit_exact; eassumption.
Qed.

Lemma view_found_described p : view_found p = true <-> view_in_path p.
Proof.
  split.
  - unfold view_found, test. intros H.
    destruct (exec board_re p) as [res|] eqn:E1.
    { apply exec_sound in E1 as (pre & m & rest & -> & M). simpl source in M.
      apply matches_seq_inv in M as (m1 & m2 & cs1 & -> & M1 & M2).
      apply board_prefix_described in M1
        as (proj & id & -> & Hp1 & Hp & Hi1 & Hi).
      apply matches_seq_inv in M2 as (o & e & cs2 & -> & Mo & Me).
      inversion Me; subst.
      apply opt_slash_described in Mo.
      exists pre, proj, id, o. rewrite !append_nil_r.
      repeat split; auto.
      destruct Mo as [-> | ->]; auto. }
    destruct (exec backlog_re p) as [res|] eqn:E2.
    { apply exec_sound in E2 as (pre & m & rest & -> & M). simpl source in M.
      apply matches_seq_inv in M as (m1 & m2 & cs1 & -> & M1 & M2).
      apply board_prefix_described in M1
        as (proj & id & -> & Hp1 & Hp & Hi1 & Hi).
      apply matches_seq_inv in M2 as (b & o & cs2 & -> & Mb & Mo).
      apply (lit_exact "/backlog") in Mb. subst b.
      exists pre, proj, id, (("/backlog" ++ o) ++ rest).
      split; [now rewrite !append_assoc|].
      repeat split; auto.
      right. right. left. exists (o ++ rest). now rewrite append_assoc. }
    destruct (exec timeline_re p) as [res|] eqn:E3; [|discriminate].
    apply exec_sound in E3 as (pre & m & rest & -> & M). simpl source in M.
    apply matches_seq_inv in M as (m1 & m2 & cs1 & -> & M1 & M2).
    apply board_prefix_described in M1
      as (proj & id & -> & Hp1 & Hp & Hi1 & Hi).
    apply matches_seq_inv in M2 as (b & o & cs2 & -> & Mb & Mo).
    apply (lit_exact "/timeline") in Mb. subst b.
    exists pre, proj, id, (("/timeline" ++ o) ++ rest).
    split; [now rewrite !append_assoc|].
    repeat split; auto.
    right. right. right. exists (o ++ rest). now rewrite append_assoc.
  - intros (pre & proj & id & rest & -> & Hp1 & Hp & Hi1 & Hi & Hr).
    unfold view_found.
    set (v := "/jira/software/" ++ proj ++ "/boards/" ++ id).
    destruct Hr as [-> | [-> | [[r ->] | [r ->]]]].
    + replace (test board_re _) with true; [reflexivity|]. symmetry.
      replace (pre ++ v ++ EmptyString)
        with (pre ++ (v ++ EmptyString) ++ EmptyString)
        by (now rewrite !append_nil_r).
      apply (test_complete board_re pre _ _ []).
      apply (M_Seq false _ _ _ v EmptyString EmptyString [] [] []).
      * now apply matches_board_prefix.
      * apply matches_board_end. now left.
    + replace (test board_re _) with true; [reflexivity|]. symmetry.
      replace (pre ++ v ++ "/") with (pre ++ (v ++ "/") ++ EmptyString)
        by (now rewrite !append_nil_r).
      apply (test_complete board_re pre _ _ []).
      apply (M_Seq false _ _ _ v "/" EmptyString [] [] []).
      * now apply matches_board_prefix.
      * apply matches_board_end. right. now left.
    + replace (test backlog_re _) with true; [now rewrite orb_true_r|].
      symmetry.
      replace (pre ++ v ++ "/backlog" ++ r)
        with (pre ++ (v ++ "/backlog" ++ EmptyString) ++ r)
        by (now rewrite !append_assoc).
      apply (test_complete backlog_re pre _ _ []).
      apply (M_Seq false _ _ _ v ("/backlog" ++ EmptyString) r [] [] []).
      * now apply matches_board_prefix.
      * apply (M_Seq false _ _ _ "/backlog" EmptyString r [] [] []).
        -- apply matches_lit.
        -- apply M_Opt_none.
    + replace (test timeline_re _) with true; [now rewrite !orb_true_r|].
      symmetry.
      replace (pre ++ v ++ "/timeline" ++ r)
        with (pre ++ (v ++ "/timeline" ++ EmptyString) ++ r)
        by (now rewrite !append_assoc).
      apply (test_complete timeline_re pre _ _ []).
      apply (M_Seq false _ _ _ v ("/timeline" ++ EmptyString) r [] [] []).
      * now apply matches_board_prefix.
      * apply (M_Seq false _ _ _ "/timeline" EmptyString r [] [] []).
        -- apply matches_lit.
        -- apply M_Opt_none.
Qed.

Lemma substring_after a p :
  substring (String.length a) (String.length p) (a ++ p) = p.
Proof. induction a; simpl; [apply substring_all | assumption]. Qed.

Lemma endsWith_described s p :
  endsWith s p = true <-> exists a, s = a ++ p.
Proof.
  split; [apply endsWith_split|]. intros [a ->]. unfold endsWith.
  rewrite length_append.
  replace (String.length a + String.length p - String.length p)
    with (String.length a) by lia.
  rewrite substring_after, String.eqb_refl, andb_true_r.
  apply Nat.leb_le. lia.
Qed.

Lemma substring_short t : forall n,
  String.length (substring 0 n t) <= String.length t.
Proof.
  induction t as [|c t IH]; intros [|n]; simpl; try lia.
  specialize (IH n). lia.
Qed.

Lemma startsWith_described s p :
  startsWith s p = true <-> exists q, s = p ++ q.
Proof.
  unfold startsWith. split.
  - intros H. apply prefix_correct in H.
    exists (substring (String.length p) (String.length s - String.length p) s).
    assert (L : String.length p <= String.length s).
    { rewrite <- H at 1. apply substring_short. }
    rewrite (substring_split s (String.length p) L) at 1. now rewrite H.
  - intros [q ->]. apply prefix_append.
Qed.

End PatternsDescribed.

(** * The classifier, described *)
Section ClassifierDescribed.
Import JS RegExp Completion Background Shape Described.

Variable URL_parse : string -> option URL.

(** X1: the page action is asked for exactly for the URLs that are a
    non-empty string that parses, with a hostname that is some text followed
    by .atlassian.net and a path in which /browse/<KEY> occurs (in any
    case), or, when selectedIssue is among the parameter names, a path that
    begins with /jira/ or in which /jira/software/<proj>/boards/<id> occurs
    followed by the end of the path, a slash and the end, /backlog or
    /timeline. *)
Theorem shown_exactly_when url :
  hasIdentifiableIssue URL_parse url = Normal true <->
  truthy url = true
  /\ exists u, URL_parse (to_string url) = Some u /\ identifiable_url u.
Proof.
  rewrite accepted_iff_tests. unfold identifiable_url.
  split; intros [Ht [u [Hp H]]]; (split; [exact Ht|]); exists u;
    (split; [exact Hp|]).
  - destruct H as [Hh Hr]. split; [now apply endsWith_described|].
    destruct Hr as [Hb | [Hs Hv]].
    + left. now apply browse_re_described.
    + right. split; [now apply has_In|].
      destruct Hv as [Hv | Hj].
      * right. now apply view_found_described.
      * left. now apply (startsWith_described (pathname u) "/jira/").
  - destruct H as [Hh Hr]. split; [now apply endsWith_described|].
    destruct Hr as [Hb | [Hs Hv]].
    + left. now apply browse_re_described.
    + right. split; [now apply has_In|].
      destruct Hv as [Hj | Hv].
      * right. now apply (startsWith_described (pathname u) "/jira/").
      * left. now apply view_found_described.
Qed.

End ClassifierDescribed.
